(** * ACI knowledge graph: data models and engine

    A shallow embedding of [src/model.py] (the pydantic data models and
    [get_unit_actions]) together with a model of the engine operations
    the specification describes on top of those records. *)

From Stdlib Require Import PrimFloat ZArith.
From stdpp Require Import gmap strings list.

Local Open Scope string_scope.
Local Open Scope list_scope.

(** ** Validation errors

    pydantic validates every field of a model, collects one error entry per
    failing field (its location and the kind of failure) and raises a single
    [ValidationError] when the collection is not empty. *)

Inductive ErrorKind : Type :=
  | missing
  | greater_than_equal
  | less_than_equal
  | literal_error
  | value_error.

Record ErrorDetail : Type := mkError { loc : string; kind : ErrorKind }.

Definition ValidationError : Type := list ErrorDetail.

(** A required field, [Field(...)]: an absent argument is one error. *)
Definition required {A : Type} (name : string) (x : option A) : list ErrorDetail :=
  match x with
  | Some _ => []
  | None => [mkError name missing]
  end.

(** [datetime] values are instants; only their order is ever used. *)
Definition datetime : Type := Z.

(** ** [RelationType = Literal["supports", "refutes", "extends", "implies", "contradicts"]] *)

Definition RelationType : list string :=
  ["supports"; "refutes"; "extends"; "implies"; "contradicts"].

(** ** [class AtomicUnit(BaseModel)] *)

Module AtomicUnit.

Record t : Type := mk {
  id : string;
  content : string;
  source_doi : option string;
  confidence : float;
  created_at : datetime;
  vector : list float
}.

(** Keyword arguments of the constructor; [None] is an omitted argument.
    An argument that is given has the type of its field: what pydantic
    answers to a value of another type (a type error on that field, or a
    coercion) is outside this record. *)
Record args : Type := Args {
  arg_id : option string;
  arg_content : option string;
  arg_source_doi : option string;
  arg_confidence : option float;
  arg_created_at : option datetime;
  arg_vector : option (list float)
}.

(** [confidence: float = Field(1.0, ge=0.0, le=1.0)]: pydantic tests the
    upper bound first, then the lower one, with the IEEE comparisons of the
    float type, and reports the first bound that fails. A NaN fails both and
    is therefore reported against the upper bound. *)
Definition check_confidence (c : float) : list ErrorDetail :=
  if negb (PrimFloat.leb c 1%float) then [mkError "confidence" less_than_equal]
  else if negb (PrimFloat.leb 0%float c) then [mkError "confidence" greater_than_equal]
  else [].

Definition confidence_errors (c : option float) : list ErrorDetail :=
  match c with
  | Some x => check_confidence x
  | None => []
  end.

Definition errors (a : args) : list ErrorDetail :=
  required "content" (arg_content a) ++ confidence_errors (arg_confidence a).

(** The constructor call on keyword arguments [a]. [uuid] and [now] are what
    [uuid.uuid4()] and [datetime.now()] answer when the default factories
    run. pydantic collects the errors of all fields before it raises. *)
Definition new (uuid : string) (now : datetime) (a : args) : ValidationError + t :=
  match arg_content a, errors a with
  | Some c, [] =>
      inr {| id := default uuid (arg_id a);
             content := c;
             source_doi := arg_source_doi a;
             confidence := default 1%float (arg_confidence a);
             created_at := default now (arg_created_at a);
             vector := default [] (arg_vector a) |}
  | _, errs => inl errs
  end.

(** Attribute assignment, [u.confidence = 5.0]. The class is a plain
    [BaseModel]: it is not frozen and does not validate assignments, so the
    value is stored as it is and the bounds of [confidence] are not looked
    at again. *)
Inductive assignment : Type :=
  | set_id (v : string)
  | set_content (v : string)
  | set_source_doi (v : option string)
  | set_confidence (v : float)
  | set_created_at (v : datetime)
  | set_vector (v : list float).

Definition setattr (u : t) (x : assignment) : t :=
  match x with
  | set_id v => mk v (content u) (source_doi u) (confidence u) (created_at u) (vector u)
  | set_content v => mk (id u) v (source_doi u) (confidence u) (created_at u) (vector u)
  | set_source_doi v => mk (id u) (content u) v (confidence u) (created_at u) (vector u)
  | set_confidence v => mk (id u) (content u) (source_doi u) v (created_at u) (vector u)
  | set_created_at v => mk (id u) (content u) (source_doi u) (confidence u) v (vector u)
  | set_vector v => mk (id u) (content u) (source_doi u) (confidence u) (created_at u) v
  end.

End AtomicUnit.

(** ** [class Relation(BaseModel)] *)

Module Relation.

Record t : Type := mk {
  source_id : string;
  target_id : string;
  type : string;
  reasoning : string;
  created_at : datetime
}.

(** Keyword arguments of the constructor; [None] is an omitted argument, and
    an argument that is given has the type of its field. *)
Record args : Type := Args {
  arg_source_id : option string;
  arg_target_id : option string;
  arg_type : option string;
  arg_reasoning : option string;
  arg_created_at : option datetime
}.

(** [type: RelationType = Field(...)]: required, and one of the literals. *)
Definition type_errors (ty : option string) : list ErrorDetail :=
  match ty with
  | None => [mkError "type" missing]
  | Some s => if bool_decide (s ∈ RelationType) then [] else [mkError "type" literal_error]
  end.

Definition errors (a : args) : list ErrorDetail :=
  required "source_id" (arg_source_id a) ++ required "target_id" (arg_target_id a)
    ++ type_errors (arg_type a) ++ required "reasoning" (arg_reasoning a).

Definition new (now : datetime) (a : args) : ValidationError + t :=
  match arg_source_id a, arg_target_id a, arg_type a, arg_reasoning a, errors a with
  | Some s, Some d, Some ty, Some r, [] =>
      inr {| source_id := s; target_id := d; type := ty; reasoning := r;
             created_at := default now (arg_created_at a) |}
  | _, _, _, _, errs => inl errs
  end.

(** Attribute assignment on a relation; as for [AtomicUnit], nothing is
    validated, the literal of [type] included. *)
Inductive assignment : Type :=
  | set_source_id (v : string)
  | set_target_id (v : string)
  | set_type (v : string)
  | set_reasoning (v : string)
  | set_created_at (v : datetime).

Definition setattr (r : t) (x : assignment) : t :=
  match x with
  | set_source_id v => mk v (target_id r) (type r) (reasoning r) (created_at r)
  | set_target_id v => mk (source_id r) v (type r) (reasoning r) (created_at r)
  | set_type v => mk (source_id r) (target_id r) v (reasoning r) (created_at r)
  | set_reasoning v => mk (source_id r) (target_id r) (type r) v (created_at r)
  | set_created_at v => mk (source_id r) (target_id r) (type r) (reasoning r) v
  end.

End Relation.

(** ** [class AvailableAction(BaseModel)] *)

Module AvailableAction.

Record t : Type := mk {
  tool : string;
  description : string;
  suggested_args : option (gmap string string)
}.

(** [tool] and [description] are required, [suggested_args] defaults to
    [None]. *)
Definition new (tool_arg description_arg : option string)
    (suggested : option (gmap string string)) : ValidationError + t :=
  match tool_arg, description_arg with
  | Some tl, Some d => inr {| tool := tl; description := d; suggested_args := suggested |}
  | _, _ => inl (required "tool" tool_arg ++ required "description" description_arg)
  end.

End AvailableAction.

(** ** Response models

    Their fields are typed and every caller supplies the required ones, so
    they are plain records. *)

Record UnitResponse : Type := mkUnitResponse {
  ur_unit : AtomicUnit.t;
  ur_available_actions : list AvailableAction.t
}.

Record ConnectionResponse : Type := mkConnectionResponse {
  cr_relation : Relation.t;
  cr_source_unit : AtomicUnit.t;
  cr_target_unit : AtomicUnit.t;
  cr_available_actions : list AvailableAction.t
}.

Record SearchResult : Type := mkSearchResult {
  sr_unit : AtomicUnit.t;
  sr_score : float;
  sr_available_actions : list AvailableAction.t
}.

Record SearchResponse : Type := mkSearchResponse {
  query : string;
  results : list SearchResult;
  total_found : nat
}.

Record LineageStep : Type := mkLineageStep {
  ls_unit : AtomicUnit.t;
  relation_to_next : option Relation.t
}.

Record LineageResponse : Type := mkLineageResponse {
  start_concept : string;
  end_concept : string;
  path : list LineageStep;
  path_length : nat;
  lr_available_actions : list AvailableAction.t
}.

(** [relation: Optional[Relation] = None]: the model itself lets a conflict
    carry no relation. *)
Record ConflictResult : Type := mkConflictResult {
  conflicting_unit : AtomicUnit.t;
  relation : option Relation.t;
  explanation : string
}.

Record ConflictResponse : Type := mkConflictResponse {
  claim : string;
  conflicts_found : bool;
  conflicts : list ConflictResult;
  cf_available_actions : list AvailableAction.t
}.

(** ** [get_unit_actions]

    The list display builds its four elements from left to right; the first
    constructor that raises ends the call. *)

Definition raise_bind {E A B : Type} (x : E + A) (k : A -> E + B) : E + B :=
  match x with
  | inl e => inl e
  | inr a => k a
  end.

Notation "'let*' x ':=' e 'in' k" := (raise_bind e (fun x => k))
  (at level 10, x name, e at level 100, k at level 200).

Definition get_unit_actions (unit_id : string) : ValidationError + list AvailableAction.t :=
  let* a1 := AvailableAction.new (Some "connect_propositions")
               (Some "Link this unit to another proposition")
               (Some {[ "id_a" := unit_id ]}) in
  let* a2 := AvailableAction.new (Some "semantic_search")
               (Some "Find related concepts") None in
  let* a3 := AvailableAction.new (Some "find_contradictions")
               (Some "Check for conflicts with this claim") None in
  let* a4 := AvailableAction.new (Some "get_unit")
               (Some "Get full details of this unit")
               (Some {[ "unit_id" := unit_id ]}) in
  inr [a1; a2; a3; a4].

(** ** [class ConflictResult(BaseModel)], the constructor

    [conflicting_unit] and [explanation] are required; [relation] defaults to
    [None], and passing [None] for it is the same as leaving it out. *)

Definition ConflictResult_new (unit_arg : option AtomicUnit.t)
    (relation_arg : option Relation.t) (explanation_arg : option string)
    : ValidationError + ConflictResult :=
  match unit_arg, explanation_arg with
  | Some u, Some why => inr (mkConflictResult u relation_arg why)
  | _, _ => inl (required "conflicting_unit" unit_arg ++ required "explanation" explanation_arg)
  end.

(** ** [get_action_tool] of [src/tests/test_quick_start.py] *)

(** What a field of an action given as a dict holds: nothing, a text, or the
    dict of suggested arguments. *)
Inductive pyvalue : Type :=
  | PyNone
  | PyStr (s : string)
  | PyArgs (d : gmap string string).

(** What [get_action_tool] is called on: a dict, an [AvailableAction]
    object, or an object that has no [tool] attribute. *)
Inductive action_value : Type :=
  | ActionDict (d : gmap string pyvalue)
  | ActionModel (a : AvailableAction.t)
  | ActionOther.

(** [action.get("tool", "unknown")] on a dict, [getattr(action, "tool",
    "unknown")] on anything else. *)
Definition get_action_tool (action : action_value) : pyvalue :=
  match action with
  | ActionDict d => default (PyStr "unknown") (d !! "tool")
  | ActionModel a => PyStr (AvailableAction.tool a)
  | ActionOther => PyStr "unknown"
  end.

(** * The engine

    [src/server.py], which the test script drives, is not among the sources.
    The operations below follow sections 4.1 to 4.8 of the specification and
    are built on the constructors above. *)

Module Engine.

(** Modelled from the spec: the error taxonomy of section 7. *)
Inductive Error : Type :=
  | Validation (e : ValidationError)
  | NotFoundError (missing_id : string)
  | NoMatchFound
  | NoPathFound
  | EmbeddingProviderError.

(** Modelled from the spec: the engine instance of sections 2 and 3 (UnitStore,
    RelationGraph, EmbeddingIndex and the two idempotency maps), which
    [src/server.py] would hold. [units] and [edges] are in insertion order; a
    relation's synthetic id is its position in [edges]. [draws] counts the
    identifier and clock readings made so far, [embed_calls] the calls to the
    embedding provider. *)
Record t : Type := mk {
  units : list AtomicUnit.t;
  edges : list Relation.t;
  index : gmap string (list float);
  ingest_keys : gmap string string;
  connect_keys : gmap string nat;
  draws : nat;
  embed_calls : nat
}.

(** Modelled from the spec: the engine before any operation: empty stores, no
    key bound. *)
Definition empty : t := mk [] [] ∅ ∅ ∅ 0 0.

(** Modelled from the spec: what an operation returns: its answer or its error,
    and the engine it leaves. *)
Definition result (A : Type) : Type := (Error + A) * t.

(** Modelled from the spec: input checks of the services that pydantic does
    not make (section 7, [ValidationError]); the entry names the argument. *)
Definition invalid (argument : string) : Error :=
  Validation [mkError argument value_error].

(** Modelled from the spec: the key test of the UnitStore, by unit id. *)
Definition same_id (uid : string) (u : AtomicUnit.t) : bool :=
  bool_decide (AtomicUnit.id u = uid).

(** Modelled from the spec: [UnitStore.get] (4.1), [NotFound] if absent. *)
Definition get (e : t) (uid : string) : Error + AtomicUnit.t :=
  match List.find (same_id uid) (units e) with
  | Some u => inr u
  | None => inl (NotFoundError uid)
  end.

(** Modelled from the spec: [UnitStore.list] (4.1), insertion order, at most
    [limit] units. *)
Definition list_units (e : t) (limit : nat) : list AtomicUnit.t :=
  take limit (units e).

(** Modelled from the spec: [RelationGraph.edges_from] (4.2). *)
Definition edges_from (e : t) (uid : string) : list Relation.t :=
  List.filter (fun r => bool_decide (Relation.source_id r = uid)) (edges e).

(** Modelled from the spec: [RelationGraph.edges_to] (4.2). *)
Definition edges_to (e : t) (uid : string) : list Relation.t :=
  List.filter (fun r => bool_decide (Relation.target_id r = uid)) (edges e).

(** Modelled from the spec: [EmbeddingIndex.upsert] (4.3). *)
Definition upsert (e : t) (uid : string) (v : list float) : t :=
  mk (units e) (edges e) (<[uid := v]> (index e)) (ingest_keys e) (connect_keys e)
     (draws e) (embed_calls e).

(** Modelled from the spec: the dot product behind the cosine similarity of
    4.3; a longer vector is cut to the length of the shorter. *)
Definition dot (a b : list float) : float :=
  fold_left (fun acc xy => PrimFloat.add acc (PrimFloat.mul (fst xy) (snd xy)))
            (combine a b) 0%float.

(** Modelled from the spec: the cosine of the angle between two vectors (4.3). *)
Definition cosine (a b : list float) : float :=
  PrimFloat.div (dot a b) (PrimFloat.mul (PrimFloat.sqrt (dot a a)) (PrimFloat.sqrt (dot b b))).

(** Modelled from the spec: the score of 4.3, [(cos+1)/2]. *)
Definition similarity (a b : list float) : float :=
  PrimFloat.div (PrimFloat.add (cosine a b) 1%float) 2%float.

(** Modelled from the spec: one answer of [EmbeddingIndex.nearest] (4.3): a unit
    id and its score, with the creation timestamp the tie-break reads. *)
Record Hit : Type := mkHit {
  hit_id : string;
  hit_score : float;
  hit_created : datetime
}.

(** Modelled from the spec: [x] goes before [y] in an answer: a higher score,
    or the same score and an earlier creation timestamp (4.3). *)
Definition before (x y : Hit) : bool :=
  PrimFloat.ltb (hit_score y) (hit_score x)
  || (PrimFloat.eqb (hit_score x) (hit_score y) && (hit_created x <? hit_created y)%Z).

(** Modelled from the spec: insertion into a ranked list, after the hits that go
    before. *)
Fixpoint insert_hit (h : Hit) (l : list Hit) : list Hit :=
  match l with
  | [] => [h]
  | x :: rest => if before x h then x :: insert_hit h rest else h :: x :: rest
  end.

(** Modelled from the spec: the ordering of 4.3, stable for hits that tie in
    score and timestamp. *)
Definition rank (l : list Hit) : list Hit := foldr insert_hit [] l.

(** Modelled from the spec: the hit of a stored unit, when the index holds a
    vector for its id. *)
Definition scored (e : t) (q : list float) (u : AtomicUnit.t) : option Hit :=
  match index e !! AtomicUnit.id u with
  | Some v => Some (mkHit (AtomicUnit.id u) (similarity q v) (AtomicUnit.created_at u))
  | None => None
  end.

(** Modelled from the spec: [EmbeddingIndex.nearest] (4.3): at most [k] hits,
    descending by score, ties by earlier creation; empty on an empty index. *)
Definition nearest (e : t) (q : list float) (k : nat) : list Hit :=
  take k (rank (omap (scored e q) (units e))).

(** Modelled from the spec: the suggested follow-up operations of a response
    (section 6). *)
Definition actions_for (uid : string) : list AvailableAction.t :=
  match get_unit_actions uid with
  | inr l => l
  | inl _ => []
  end.

(** Modelled from the spec: the answer of the unit operations: the unit and its
    suggested actions (section 6). *)
Definition unit_response (u : AtomicUnit.t) : UnitResponse :=
  mkUnitResponse u (actions_for (AtomicUnit.id u)).

(** Modelled from the spec: the engine after one more call of the embedding
    provider. *)
Definition count_embed_call (e : t) : t :=
  mk (units e) (edges e) (index e) (ingest_keys e) (connect_keys e)
     (draws e) (S (embed_calls e)).

Section Collaborators.

(** The external collaborators of section 1: the [n]-th identifier and the
    [n]-th clock reading, and the answer of the embedding provider to its
    [n]-th call ([None] when it fails after its retries). *)
Variable uuid4 : nat -> string.
Variable clock : nat -> datetime.
Variable embed : nat -> string -> option (list float).

(** Modelled from the spec: [UnitStore.put] (4.1): a new identifier and
    timestamp, the unit stored last and returned; the store does not look at
    the content. *)
Definition put (e : t) (content : string) (source : option string)
    (confidence : option float) (v : list float) : result AtomicUnit.t :=
  match AtomicUnit.new (uuid4 (draws e)) (clock (draws e))
          (AtomicUnit.Args None (Some content) source confidence None (Some v)) with
  | inl err => (inl (Validation err), e)
  | inr u =>
      (inr u, mk (units e ++ [u]) (edges e) (index e) (ingest_keys e) (connect_keys e)
                 (S (draws e)) (embed_calls e))
  end.

(** Modelled from the spec: [RelationGraph.add_edge] (4.2): [NotFound] if an
    endpoint is missing from the UnitStore, else the edge stored last. *)
Definition add_edge (e : t) (source_id target_id ty reasoning : string) : result Relation.t :=
  match get e source_id, get e target_id with
  | inl err, _ => (inl err, e)
  | _, inl err => (inl err, e)
  | inr _, inr _ =>
      match Relation.new (clock (draws e))
              (Relation.Args (Some source_id) (Some target_id) (Some ty) (Some reasoning) None) with
      | inl err => (inl (Validation err), e)
      | inr r =>
          (inr r, mk (units e) (edges e ++ [r]) (index e) (ingest_keys e) (connect_keys e)
                     (S (draws e)) (embed_calls e))
      end
  end.

(** Modelled from the spec: the ingestion key bound to the unit id it produced
    (section 3, idempotency record). *)
Definition record_ingest (e : t) (key uid : string) : t :=
  mk (units e) (edges e) (index e) (<[key := uid]> (ingest_keys e)) (connect_keys e)
     (draws e) (embed_calls e).

(** Modelled from the spec: the connection key bound to the synthetic relation
    id it produced (section 3, idempotency record). *)
Definition record_connect (e : t) (key : string) (rid : nat) : t :=
  mk (units e) (edges e) (index e) (ingest_keys e) (<[key := rid]> (connect_keys e))
     (draws e) (embed_calls e).

(** Modelled from the spec: [ingest_hypothesis] of [src/server.py] (4.4), with
    the argument names the test script uses. A known key replays the stored
    unit; otherwise the content is embedded, the unit stored and indexed, and
    the key recorded. The spec does not place the check of empty content
    among these steps; as a check of the input it is made first, so that
    empty content fails whatever the key. *)
Definition ingest_hypothesis (e : t) (hypothesis : string) (source : option string)
    (idempotency_key : string) : result UnitResponse :=
  if bool_decide (hypothesis = "") then (inl (invalid "hypothesis"), e)
  else
    match ingest_keys e !! idempotency_key with
    | Some uid =>
        match get e uid with
        | inr u => (inr (unit_response u), e)
        | inl err => (inl err, e)
        end
    | None =>
        let e1 := count_embed_call e in
        match embed (embed_calls e) hypothesis with
        | None => (inl EmbeddingProviderError, e1)
        | Some v =>
            match put e1 hypothesis source None v with
            | (inl err, e2) => (inl err, e2)
            | (inr u, e2) =>
                (inr (unit_response u),
                 record_ingest (upsert e2 (AtomicUnit.id u) v) idempotency_key (AtomicUnit.id u))
            end
        end
    end.

(** Modelled from the spec: the answer of [connect_propositions] (4.5): the
    relation and its two endpoint units. *)
Definition connection_response (e : t) (r : Relation.t) : Error + ConnectionResponse :=
  match get e (Relation.source_id r), get e (Relation.target_id r) with
  | inr a, inr b => inr (mkConnectionResponse r a b (actions_for (Relation.source_id r)))
  | inl err, _ => inl err
  | _, inl err => inl err
  end.

(** Modelled from the spec: [connect_propositions] of [src/server.py] (4.5):
    replay first; otherwise both ids must exist ([NotFound] naming the missing
    one), the relation must be one of the five kinds, and [id_a] must differ
    from [id_b]; then the edge from [id_a] to [id_b] is stored and the key
    recorded. *)
Definition connect_propositions (e : t) (id_a id_b relation reasoning : string)
    (idempotency_key : string) : result ConnectionResponse :=
  match connect_keys e !! idempotency_key with
  | Some rid =>
      match edges e !! rid with
      | Some r => (connection_response e r, e)
      | None => (inl (NotFoundError idempotency_key), e)
      end
  | None =>
      match get e id_a, get e id_b with
      | inl err, _ => (inl err, e)
      | _, inl err => (inl err, e)
      | inr _, inr _ =>
          if negb (bool_decide (relation ∈ RelationType)) then (inl (invalid "relation"), e)
          else if bool_decide (id_a = id_b) then (inl (invalid "id_b"), e)
          else
            match add_edge e id_a id_b relation reasoning with
            | (inl err, e1) => (inl err, e1)
            | (inr r, e1) =>
                let e2 := record_connect e1 idempotency_key (length (edges e)) in
                (connection_response e2 r, e2)
            end
      end
  end.

(** Modelled from the spec: [get_unit] of [src/server.py], [UnitStore.get]
    behind the operation the test script calls. *)
Definition get_unit (e : t) (unit_id : string) : result UnitResponse :=
  match get e unit_id with
  | inr u => (inr (unit_response u), e)
  | inl err => (inl err, e)
  end.

(** Modelled from the spec: [list_propositions] of [src/server.py],
    [UnitStore.list] behind the operation the test script calls. *)
Definition list_propositions (e : t) (limit : nat) : result (list AtomicUnit.t) :=
  (inr (list_units e limit), e).

(** Modelled from the spec: one hit mapped back through [UnitStore.get] (4.6). *)
Definition search_result (e : t) (h : Hit) : Error + SearchResult :=
  let* u := get e (hit_id h) in
  inr (mkSearchResult u (hit_score h) (actions_for (hit_id h))).

(** Modelled from the spec: the hits of a search mapped back in order; the first
    unit that is not found ends the mapping (4.6). *)
Fixpoint search_results (e : t) (hits : list Hit) : Error + list SearchResult :=
  match hits with
  | [] => inr []
  | h :: rest =>
      let* r := search_result e h in
      let* rs := search_results e rest in
      inr (r :: rs)
  end.

(** Modelled from the spec: [semantic_search] of [src/server.py] (4.6):
    [ValidationError] if [limit <= 0]; the query is embedded, the nearest
    [limit] hits are mapped back through [UnitStore.get]. *)
Definition semantic_search (e : t) (query_text : string) (limit : Z) : result SearchResponse :=
  if (limit <=? 0)%Z then (inl (invalid "limit"), e)
  else
    let e1 := count_embed_call e in
    match embed (embed_calls e) query_text with
    | None => (inl EmbeddingProviderError, e1)
    | Some q =>
        match search_results e1 (nearest e1 q (Z.to_nat limit)) with
        | inr rs => (inr (mkSearchResponse query_text rs (length rs)), e1)
        | inl err => (inl err, e1)
        end
    end.

(** Modelled from the spec: insertion of an edge by creation timestamp, after
    the edges that are not later (4.7). *)
Fixpoint insert_edge (r : Relation.t) (l : list Relation.t) : list Relation.t :=
  match l with
  | [] => [r]
  | x :: rest =>
      if (Relation.created_at r <? Relation.created_at x)%Z then r :: x :: rest
      else x :: insert_edge r rest
  end.

(** Modelled from the spec: edges in the order the traversal of 4.7 explores
    them: creation timestamp ascending, insertion order among equal timestamps. *)
Definition by_creation (l : list Relation.t) : list Relation.t :=
  fold_left (fun acc r => insert_edge r acc) l [].

(** Modelled from the spec: the queue of the breadth-first search of 4.7; an
    entry is a reached unit id and the edges that led to it, last edge
    first. *)
Definition frontier : Type := list (string * list Relation.t).

(** Modelled from the spec: the out-edges of one node entered into the queue,
    each target at most once (4.7, cycle safety). *)
Fixpoint expand (trail : list Relation.t) (out : list Relation.t)
    (visited : list string) (queue : frontier) : list string * frontier :=
  match out with
  | [] => (visited, queue)
  | r :: rest =>
      if bool_decide (Relation.target_id r ∈ visited) then expand trail rest visited queue
      else expand trail rest (Relation.target_id r :: visited)
                  (queue ++ [(Relation.target_id r, r :: trail)])
  end.

(** Modelled from the spec: the breadth-first search of 4.7, forward along
    edges, every node entered at most once. A round takes one entry off the
    queue, and an entry is added only for a target not visited before;
    [fuel] bounds the number of rounds. *)
Fixpoint bfs (fuel : nat) (e : t) (goal : string) (visited : list string)
    (queue : frontier) : option (list Relation.t) :=
  match fuel with
  | O => None
  | S fuel' =>
      match queue with
      | [] => None
      | (node, trail) :: rest =>
          if bool_decide (node = goal) then Some (rev trail)
          else
            let '(visited', queue') :=
              expand trail (by_creation (edges_from e node)) visited rest in
            bfs fuel' e goal visited' queue'
      end
  end.

(** Modelled from the spec: the path of 4.7 as (unit, relation to next) steps
    from start to end. *)
Fixpoint lineage_steps (e : t) (trail : list Relation.t) (last : AtomicUnit.t)
    : Error + list LineageStep :=
  match trail with
  | [] => inr [mkLineageStep last None]
  | r :: rest =>
      let* u := get e (Relation.source_id r) in
      let* steps := lineage_steps e rest last in
      inr (mkLineageStep u (Some r) :: steps)
  end.

(** Modelled from the spec: the top-1 result of a search, [NoMatchFound] if
    there is none (4.7). *)
Definition top_unit (r : Error + SearchResponse) : Error + AtomicUnit.t :=
  match r with
  | inl err => inl err
  | inr resp =>
      match results resp with
      | [] => inl NoMatchFound
      | hit :: _ => inr (sr_unit hit)
      end
  end.

(** Modelled from the spec: [find_scientific_lineage] of [src/server.py]
    (4.7): both concepts are resolved by the top search result
    ([NoMatchFound] if a search is empty), then the path is searched
    ([NoPathFound] if the end unit is not reached). *)
Definition find_scientific_lineage (e : t) (start_text end_text : string)
    : result LineageResponse :=
  let '(r1, e1) := semantic_search e start_text 1 in
  match top_unit r1 with
  | inl err => (inl err, e1)
  | inr a =>
      let '(r2, e2) := semantic_search e1 end_text 1 in
      match top_unit r2 with
      | inl err => (inl err, e2)
      | inr b =>
          match bfs (S (S (length (edges e2)))) e2 (AtomicUnit.id b)
                    [AtomicUnit.id a] [(AtomicUnit.id a, [])] with
          | None => (inl NoPathFound, e2)
          | Some trail =>
              match lineage_steps e2 trail b with
              | inl err => (inl err, e2)
              | inr steps =>
                  (inr (mkLineageResponse start_text end_text steps (length trail)
                          (actions_for (AtomicUnit.id b))), e2)
              end
          end
      end
  end.

(** Modelled from the spec: the fixed candidate count of 4.8. *)
Definition candidate_count : nat := 20.

(** Modelled from the spec: the relevance threshold of 4.8, on the normalized
    scale. *)
Definition relevance_threshold : float := 0.5%float.

(** Modelled from the spec: the opposing relation types of 4.8, refutes and
    contradicts. *)
Definition opposing (r : Relation.t) : bool :=
  bool_decide (Relation.type r = "refutes") || bool_decide (Relation.type r = "contradicts").

(** Modelled from the spec: [r] joins the candidate [cid] to one of [others],
    in either direction (4.8). *)
Definition joins (cid : string) (others : list string) (r : Relation.t) : bool :=
  (bool_decide (Relation.source_id r = cid) && bool_decide (Relation.target_id r ∈ others))
  || (bool_decide (Relation.target_id r = cid) && bool_decide (Relation.source_id r ∈ others)).

(** Modelled from the spec: the first stored opposing edge between a candidate
    and another retained unit (4.8). *)
Definition opposing_edge (e : t) (cid : string) (others : list string) : option Relation.t :=
  List.find (fun r => opposing r && joins cid others r) (edges e).

(** Modelled from the spec: the generated explanation of 4.8, which quotes
    the relation's stored reasoning after naming its type. *)
Definition explain (r : Relation.t) : string :=
  ("Linked by a '" ++ Relation.type r ++ "' relation: ") ++ Relation.reasoning r.

(** Modelled from the spec: the ids of the retained units other than the
    candidate (4.8). *)
Definition other_ids (cid : string) (retained : list Hit) : list string :=
  List.filter (fun i => negb (bool_decide (i = cid))) (map hit_id retained).

(** Modelled from the spec: the conflict reported for a retained candidate, if
    an opposing edge joins it to another retained unit (4.8); it is annotated
    with that edge and its explanation. *)
Definition conflict_of (e : t) (retained : list Hit) (h : Hit) : option ConflictResult :=
  match opposing_edge e (hit_id h) (other_ids (hit_id h) retained), get e (hit_id h) with
  | Some r, inr u => Some (mkConflictResult u (Some r) (explain r))
  | _, _ => None
  end.

(** Modelled from the spec: [find_contradictions] of [src/server.py] (4.8):
    [ValidationError] on an empty claim; the claim is embedded, the
    [candidate_count] nearest units above the threshold are retained, and a
    retained unit is reported when an opposing edge joins it to another
    retained unit. *)
Definition find_contradictions (e : t) (claim_text : string) : result ConflictResponse :=
  if bool_decide (claim_text = "") then (inl (invalid "claim"), e)
  else
    let e1 := count_embed_call e in
    match embed (embed_calls e) claim_text with
    | None => (inl EmbeddingProviderError, e1)
    | Some q =>
        let retained :=
          List.filter (fun h => PrimFloat.ltb relevance_threshold (hit_score h))
                      (nearest e1 q candidate_count) in
        let found := omap (conflict_of e1 retained) retained in
        (inr (mkConflictResponse claim_text (negb (bool_decide (found = []))) found []), e1)
    end.

(** Modelled from the spec: the operations of the engine, and the state each one
    leaves. *)
Inductive Op : Type :=
  | Ingest (hypothesis : string) (source : option string) (idempotency_key : string)
  | Connect (id_a id_b relation reasoning idempotency_key : string)
  | Search (query_text : string) (limit : Z)
  | Lineage (start_text end_text : string)
  | Contradictions (claim_text : string)
  | GetUnit (unit_id : string)
  | ListPropositions (limit : nat).

(** Modelled from the spec: the engine one operation leaves. *)
Definition step (e : t) (op : Op) : t :=
  match op with
  | Ingest h s k => snd (ingest_hypothesis e h s k)
  | Connect a b r why k => snd (connect_propositions e a b r why k)
  | Search q l => snd (semantic_search e q l)
  | Lineage a b => snd (find_scientific_lineage e a b)
  | Contradictions c => snd (find_contradictions e c)
  | GetUnit u => snd (get_unit e u)
  | ListPropositions l => snd (list_propositions e l)
  end.

(** Modelled from the spec: the engine a sequence of operations leaves. *)
Definition run (e : t) (ops : list Op) : t := fold_left step ops e.

End Collaborators.

End Engine.

(** * Vocabulary of the statements *)

(** Membership in the closed interval [0,1], with the float comparisons. *)
Definition in_unit_interval (c : float) : bool :=
  PrimFloat.leb 0%float c && PrimFloat.leb c 1%float.

(** [AtomicUnit(content=text, confidence=conf)], every other argument
    omitted. *)
Definition unit_args (text : string) (conf : option float) : AtomicUnit.args :=
  AtomicUnit.Args None (Some text) None conf None None.

(** [Relation(source_id=s, target_id=d, type=ty, reasoning=why)]. *)
Definition relation_args (s d ty why : string) : Relation.args :=
  Relation.Args (Some s) (Some d) (Some ty) (Some why) None.

Definition without_vector (a : AtomicUnit.args) : AtomicUnit.args :=
  AtomicUnit.Args (AtomicUnit.arg_id a) (AtomicUnit.arg_content a) (AtomicUnit.arg_source_doi a)
    (AtomicUnit.arg_confidence a) (AtomicUnit.arg_created_at a) None.

Definition accepted {E A : Type} (r : E + A) : Prop := exists x, r = inr x.

Definition tools (l : list AvailableAction.t) : list string := map AvailableAction.tool l.

Definition descriptions (l : list AvailableAction.t) : list string :=
  map AvailableAction.description l.

(** Deterministic stand-ins for the collaborators, as a test of the engine
    would supply them: identifiers "a", "b", ..., a clock that ticks once per
    reading, and a provider that fails on the text "boom" only. *)
Definition stub_uuid4 (n : nat) : string := String (Ascii.ascii_of_nat (97 + n)) "".

Definition stub_clock (n : nat) : datetime := Z.of_nat n.

Definition stub_embed (n : nat) (text : string) : option (list float) :=
  if bool_decide (text = "boom") then None else Some [1%float; 0.5%float].

Definition stub_run : list Engine.Op -> Engine.t :=
  Engine.run stub_uuid4 stub_clock stub_embed Engine.empty.

(** Two units joined by a [contradicts] edge. *)
Definition two_claims : Engine.t :=
  stub_run [Engine.Ingest "larger models always win" None "k1";
            Engine.Ingest "small models can win" None "k2";
            Engine.Connect "b" "a" "contradicts" "benchmarks disagree" "c1"].

(** [e'] still stores every unit and every relation of [e], each at the
    position it had. *)
Definition keeps (e e' : Engine.t) : Prop :=
  Engine.units e `prefix_of` Engine.units e' /\ Engine.edges e `prefix_of` Engine.edges e'.

(** What the engine lets into its stores. *)
Definition sound_unit (u : AtomicUnit.t) : Prop := AtomicUnit.content u <> "".

Definition sound_edge (r : Relation.t) : Prop :=
  Relation.source_id r <> Relation.target_id r /\ Relation.type r ∈ RelationType.

Definition sound (e : Engine.t) : Prop :=
  Forall sound_unit (Engine.units e) /\ Forall sound_edge (Engine.edges e).

(** The unit and the state a first ingestion under a fresh key produces. *)
Definition ingested_unit (uuid : string) (now : datetime) (text : string)
    (source : option string) (v : list float) : AtomicUnit.t :=
  AtomicUnit.mk uuid text source 1%float now v.

Definition after_ingest (e : Engine.t) (key : string) (u : AtomicUnit.t) : Engine.t :=
  Engine.mk (Engine.units e ++ [u]) (Engine.edges e)
    (<[AtomicUnit.id u := AtomicUnit.vector u]> (Engine.index e))
    (<[key := AtomicUnit.id u]> (Engine.ingest_keys e)) (Engine.connect_keys e)
    (S (Engine.draws e)) (S (Engine.embed_calls e)).

Definition after_connect (e : Engine.t) (key : string) (r : Relation.t) : Engine.t :=
  Engine.mk (Engine.units e) (Engine.edges e ++ [r]) (Engine.index e)
    (Engine.ingest_keys e) (<[key := length (Engine.edges e)]> (Engine.connect_keys e))
    (S (Engine.draws e)) (Engine.embed_calls e).

(** [part] occurs at the end of [text]. *)
Definition quotes (text part : string) : Prop := exists lead : string, text = (lead ++ part)%string.

(** The conflict the engine reports first on [two_claims]. *)
Definition stub_conflict : ConflictResult :=
  mkConflictResult
    (ingested_unit "a" 0%Z "larger models always win" None [1%float; 0.5%float])
    (Some (Relation.mk "b" "a" "contradicts" "benchmarks disagree" 2%Z))
    "Linked by a 'contradicts' relation: benchmarks disagree".

(** The first ingestion into the empty engine, and the unit it stores. *)
Definition stub_unit : AtomicUnit.t :=
  ingested_unit "a" 0%Z "water boils at 100 degrees" None [1%float; 0.5%float].

Definition stub_first : Engine.t :=
  stub_run [Engine.Ingest "water boils at 100 degrees" None "test-uc1"].

(** An argument record that passes every field of [u] explicitly, as
    rebuilding a unit from its own field values does. *)
Definition unit_fields (u : AtomicUnit.t) : AtomicUnit.args :=
  AtomicUnit.Args (Some (AtomicUnit.id u)) (Some (AtomicUnit.content u))
    (AtomicUnit.source_doi u) (Some (AtomicUnit.confidence u))
    (Some (AtomicUnit.created_at u)) (Some (AtomicUnit.vector u)).

Definition relation_fields (r : Relation.t) : Relation.args :=
  Relation.Args (Some (Relation.source_id r)) (Some (Relation.target_id r))
    (Some (Relation.type r)) (Some (Relation.reasoning r)) (Some (Relation.created_at r)).

(** The confidence argument, when there is one, lies in [0,1]. *)
Definition confidence_ok (a : AtomicUnit.args) : Prop :=
  forall c, AtomicUnit.arg_confidence a = Some c -> in_unit_interval c = true.

(** The fields of the two models that can fail, in declaration order. *)
Definition unit_checked_fields : list string := ["content"; "confidence"].

Definition relation_checked_fields : list string :=
  ["source_id"; "target_id"; "type"; "reasoning"].

(** The dict form of an action, field by field, as pydantic's [model_dump]
    gives it. *)
Definition model_dump (a : AvailableAction.t) : gmap string pyvalue :=
  {[ "tool" := PyStr (AvailableAction.tool a);
     "description" := PyStr (AvailableAction.description a);
     "suggested_args" := match AvailableAction.suggested_args a with
                         | Some d => PyArgs d
                         | None => PyNone
                         end ]}.

(** The unit id a list of suggested actions was made for, read from the
    arguments suggested for [connect_propositions]. *)
Definition suggested_unit_id (l : list AvailableAction.t) : option string :=
  (l !! 0 ≫= AvailableAction.suggested_args) ≫= (.!! "id_a").

Definition action_names : list string :=
  ["connect_propositions"; "semantic_search"; "find_contradictions"; "get_unit"].

(** The field an assignment writes holds the assigned value in [u]. *)
Definition unit_holds (x : AtomicUnit.assignment) (u : AtomicUnit.t) : Prop :=
  match x with
  | AtomicUnit.set_id v => AtomicUnit.id u = v
  | AtomicUnit.set_content v => AtomicUnit.content u = v
  | AtomicUnit.set_source_doi v => AtomicUnit.source_doi u = v
  | AtomicUnit.set_confidence v => AtomicUnit.confidence u = v
  | AtomicUnit.set_created_at v => AtomicUnit.created_at u = v
  | AtomicUnit.set_vector v => AtomicUnit.vector u = v
  end.

Definition relation_holds (x : Relation.assignment) (r : Relation.t) : Prop :=
  match x with
  | Relation.set_source_id v => Relation.source_id r = v
  | Relation.set_target_id v => Relation.target_id r = v
  | Relation.set_type v => Relation.type r = v
  | Relation.set_reasoning v => Relation.reasoning r = v
  | Relation.set_created_at v => Relation.created_at r = v
  end.

(** * The data models of [src/model.py] *)

Lemma unit_new_rejects (uuid : string) (now : datetime) (a : AtomicUnit.args) :
  AtomicUnit.errors a <> [] -> AtomicUnit.new uuid now a = inl (AtomicUnit.errors a).
Proof.
  intros Hne. unfold AtomicUnit.new.
  destruct (AtomicUnit.arg_content a); [| reflexivity].
  destruct (AtomicUnit.errors a); [contradiction | reflexivity].
Qed.

Lemma unit_new_accepts (uuid : string) (now : datetime) (a : AtomicUnit.args) (text : string) :
  AtomicUnit.arg_content a = Some text ->
  AtomicUnit.confidence_errors (AtomicUnit.arg_confidence a) = [] ->
  AtomicUnit.new uuid now a =
    inr (AtomicUnit.mk (default uuid (AtomicUnit.arg_id a)) text (AtomicUnit.arg_source_doi a)
           (default 1%float (AtomicUnit.arg_confidence a))
           (default now (AtomicUnit.arg_created_at a))
           (default [] (AtomicUnit.arg_vector a))).
Proof.
  intros Hc He. unfold AtomicUnit.new, AtomicUnit.errors. rewrite Hc, He. reflexivity.
Qed.

Lemma check_confidence_inside (c : float) :
  in_unit_interval c = true -> AtomicUnit.check_confidence c = [].
Proof.
  unfold in_unit_interval, AtomicUnit.check_confidence.
  intros [H0 H1]%andb_true_iff. rewrite H0, H1. reflexivity.
Qed.

Lemma check_confidence_outside (c : float) :
  in_unit_interval c = false ->
  AtomicUnit.check_confidence c = [mkError "confidence" greater_than_equal]
  \/ AtomicUnit.check_confidence c = [mkError "confidence" less_than_equal].
Proof.
  unfold in_unit_interval, AtomicUnit.check_confidence.
  destruct (PrimFloat.leb c 1); simpl; [| now right].
  rewrite andb_true_r. intros ->. now left.
Qed.

(** C2: a confidence outside [0,1] makes the construction of an AtomicUnit
    fail with a validation error that names the field; a confidence inside
    [0,1] is accepted and kept; an omitted confidence becomes exactly 1.0. *)
Theorem confidence_validated (uuid : string) (now : datetime) (a : AtomicUnit.args) :
  (forall c, AtomicUnit.arg_confidence a = Some c -> in_unit_interval c = false ->
     exists errs k, AtomicUnit.new uuid now a = inl errs /\ mkError "confidence" k ∈ errs)
  /\ (forall c text, AtomicUnit.arg_confidence a = Some c -> in_unit_interval c = true ->
        AtomicUnit.arg_content a = Some text ->
        exists u, AtomicUnit.new uuid now a = inr u /\ AtomicUnit.confidence u = c)
  /\ (forall text, AtomicUnit.arg_confidence a = None ->
        AtomicUnit.arg_content a = Some text ->
        exists u, AtomicUnit.new uuid now a = inr u /\ AtomicUnit.confidence u = 1%float).
Proof.
  split; [| split].
  - intros c Hc Hout.
    assert (Herr : exists k, mkError "confidence" k ∈ AtomicUnit.errors a).
    { unfold AtomicUnit.errors. rewrite Hc. simpl.
      destruct (check_confidence_outside c Hout) as [-> | ->];
        eexists; apply elem_of_app; right; apply list_elem_of_singleton; reflexivity. }
    destruct Herr as [k Hk]. exists (AtomicUnit.errors a), k. split; [| exact Hk].
    apply unit_new_rejects. intros Hnil. rewrite Hnil in Hk. inversion Hk.
  - intros c text Hc Hin Htext. eexists. split.
    + apply (unit_new_accepts uuid now a text Htext).
      rewrite Hc. simpl. now apply check_confidence_inside.
    + simpl. rewrite Hc. reflexivity.
  - intros text Hc Htext. eexists. split.
    + apply (unit_new_accepts uuid now a text Htext). rewrite Hc. reflexivity.
    + simpl. rewrite Hc. reflexivity.
Qed.

Lemma confidence_validated_witness :
  (exists errs k, AtomicUnit.new "u" 0%Z (unit_args "x" (Some 1.5%float)) = inl errs
                  /\ mkError "confidence" k ∈ errs)
  /\ (exists u, AtomicUnit.new "u" 0%Z (unit_args "x" (Some 0.25%float)) = inr u
                /\ AtomicUnit.confidence u = 0.25%float)
  /\ (exists u, AtomicUnit.new "u" 0%Z (unit_args "x" None) = inr u
                /\ AtomicUnit.confidence u = 1%float).
Proof.
  split; [| split].
  - apply (proj1 (confidence_validated "u" 0%Z (unit_args "x" (Some 1.5%float))) 1.5%float);
      reflexivity.
  - apply (proj1 (proj2 (confidence_validated "u" 0%Z (unit_args "x" (Some 0.25%float))))
             0.25%float "x"); reflexivity.
  - apply (proj2 (proj2 (confidence_validated "u" 0%Z (unit_args "x" None))) "x"); reflexivity.
Defined.

(** The edges of the interval, the values next to them, and the special
    floats. *)
Example confidence_samples :
  map in_unit_interval
      [0%float; 1%float; (-0)%float; 0.5%float; (-0x1p-1074)%float; 0x1.0000000000001p+0%float;
       PrimFloat.nan; PrimFloat.infinity; PrimFloat.neg_infinity]
  = [true; true; true; true; false; false; false; false; false].
Proof. reflexivity. Qed.

Example confidence_nan_rejected :
  AtomicUnit.new "u" 0%Z (unit_args "x" (Some PrimFloat.nan))
  = inl [mkError "confidence" less_than_equal].
Proof. reflexivity. Qed.

Lemma relation_new_rejects (now : datetime) (a : Relation.args) :
  Relation.errors a <> [] -> Relation.new now a = inl (Relation.errors a).
Proof.
  intros Hne. unfold Relation.new.
  destruct (Relation.arg_source_id a), (Relation.arg_target_id a),
    (Relation.arg_type a), (Relation.arg_reasoning a); try reflexivity.
  destruct (Relation.errors a); [contradiction | reflexivity].
Qed.

Lemma relation_new_accepts (now : datetime) (a : Relation.args) (s d ty why : string) :
  Relation.arg_source_id a = Some s -> Relation.arg_target_id a = Some d ->
  Relation.arg_type a = Some ty -> Relation.arg_reasoning a = Some why ->
  ty ∈ RelationType ->
  Relation.new now a = inr (Relation.mk s d ty why (default now (Relation.arg_created_at a))).
Proof.
  intros Hs Hd Hty Hwhy Hin. unfold Relation.new, Relation.errors, Relation.type_errors.
  rewrite Hs, Hd, Hty, Hwhy. simpl. rewrite bool_decide_eq_true_2 by exact Hin. reflexivity.
Qed.

Lemma relation_type_cases (ty : string) :
  ty ∈ RelationType <->
  ty = "supports" \/ ty = "refutes" \/ ty = "extends" \/ ty = "implies" \/ ty = "contradicts".
Proof.
  unfold RelationType. rewrite !elem_of_cons, elem_of_nil. tauto.
Qed.

(** C3: whatever the other arguments are, a relation type outside the five
    recognized kinds makes the construction of a Relation fail with a
    validation error on [type] and yields no relation; with the other required
    arguments present, the construction succeeds exactly when the type is one
    of supports, refutes, extends, implies, contradicts. *)
Theorem relation_type_validated (now : datetime) (a : Relation.args) (ty : string) :
  Relation.arg_type a = Some ty ->
  (ty ∉ RelationType ->
     exists errs, Relation.new now a = inl errs /\ mkError "type" literal_error ∈ errs)
  /\ (forall s d why,
        Relation.arg_source_id a = Some s -> Relation.arg_target_id a = Some d ->
        Relation.arg_reasoning a = Some why ->
        (accepted (Relation.new now a) <->
         ty = "supports" \/ ty = "refutes" \/ ty = "extends" \/ ty = "implies"
         \/ ty = "contradicts")).
Proof.
  intros Hty.
  assert (Hbad : ty ∉ RelationType ->
            exists errs, Relation.new now a = inl errs /\ mkError "type" literal_error ∈ errs).
  { intros Hout.
    assert (Hin : mkError "type" literal_error ∈ Relation.errors a).
    { unfold Relation.errors, Relation.type_errors. rewrite Hty.
      rewrite bool_decide_eq_false_2 by exact Hout.
      rewrite !elem_of_app. right; right; left. apply list_elem_of_singleton. reflexivity. }
    exists (Relation.errors a). split; [| exact Hin].
    apply relation_new_rejects. intros Hnil. rewrite Hnil in Hin. inversion Hin. }
  split; [exact Hbad |].
  intros s d why Hs Hd Hwhy. rewrite <- relation_type_cases. split.
  - intros [rel Hrel]. destruct (decide (ty ∈ RelationType)) as [Hin | Hout]; [exact Hin |].
    destruct (Hbad Hout) as (errs & Herrs & _). congruence.
  - intros Hin. eexists. apply (relation_new_accepts now a s d ty why); assumption.
Qed.

Lemma relation_type_validated_witness :
  (exists errs, Relation.new 0%Z (relation_args "a" "b" "cites" "why") = inl errs
                /\ mkError "type" literal_error ∈ errs)
  /\ accepted (Relation.new 0%Z (relation_args "a" "b" "refutes" "why")).
Proof.
  split.
  - apply (proj1 (relation_type_validated 0%Z (relation_args "a" "b" "cites" "why") "cites"
                    eq_refl)).
    unfold RelationType. rewrite !elem_of_cons, elem_of_nil.
    intros [H | [H | [H | [H | [H | []]]]]]; discriminate H.
  - apply (proj2 (relation_type_validated 0%Z (relation_args "a" "b" "refutes" "why") "refutes"
                    eq_refl) "a" "b" "why" eq_refl eq_refl eq_refl).
    right; left; reflexivity.
Defined.

Example relation_type_case_sensitive :
  Relation.new 0%Z (relation_args "a" "b" "Supports" "why") = inl [mkError "type" literal_error].
Proof. reflexivity. Qed.

(** C10: the embedding vector is optional. A construction that omits it
    succeeds whenever the content is given and the confidence passes, and the
    unit then carries the empty vector; leaving the vector out never changes
    whether a construction is accepted. *)
Theorem vector_optional (uuid : string) (now : datetime) (a : AtomicUnit.args) (text : string) :
  AtomicUnit.arg_vector a = None ->
  AtomicUnit.arg_content a = Some text ->
  AtomicUnit.confidence_errors (AtomicUnit.arg_confidence a) = [] ->
  (exists u, AtomicUnit.new uuid now a = inr u /\ AtomicUnit.vector u = []
             /\ AtomicUnit.content u = text)
  /\ (forall b : AtomicUnit.args,
        accepted (AtomicUnit.new uuid now b) <->
        accepted (AtomicUnit.new uuid now (without_vector b))).
Proof.
  intros Hv Htext Hconf. split.
  - eexists. split; [apply (unit_new_accepts uuid now a text Htext Hconf) |].
    simpl. rewrite Hv. split; reflexivity.
  - intros b. unfold accepted, AtomicUnit.new, AtomicUnit.errors, without_vector. simpl.
    destruct (AtomicUnit.arg_content b); simpl.
    + destruct (AtomicUnit.confidence_errors (AtomicUnit.arg_confidence b)); simpl.
      * split; intros _; eexists; reflexivity.
      * split; intros [u Hu]; discriminate Hu.
    + split; intros [u Hu]; discriminate Hu.
Qed.

Lemma vector_optional_witness :
  exists u, AtomicUnit.new "u" 0%Z (unit_args "water boils" None) = inr u
            /\ AtomicUnit.vector u = [] /\ AtomicUnit.content u = "water boils".
Proof.
  apply (proj1 (vector_optional "u" 0%Z (unit_args "water boils" None) "water boils"
                  eq_refl eq_refl eq_refl)).
Defined.

(** C8: for every unit id, [get_unit_actions] returns four descriptors in the
    order connect_propositions, semantic_search, find_contradictions,
    get_unit; their tool names and descriptions are the same for every id;
    the first suggests [{"id_a": unit_id}], the last [{"unit_id": unit_id}],
    the two in between suggest nothing. *)
Theorem get_unit_actions_static (unit_id : string) :
  exists a1 a2 a3 a4,
    get_unit_actions unit_id = inr [a1; a2; a3; a4]
    /\ tools [a1; a2; a3; a4]
       = ["connect_propositions"; "semantic_search"; "find_contradictions"; "get_unit"]
    /\ descriptions [a1; a2; a3; a4]
       = ["Link this unit to another proposition"; "Find related concepts";
          "Check for conflicts with this claim"; "Get full details of this unit"]
    /\ AvailableAction.suggested_args a1 = Some {[ "id_a" := unit_id ]}
    /\ AvailableAction.suggested_args a2 = None
    /\ AvailableAction.suggested_args a3 = None
    /\ AvailableAction.suggested_args a4 = Some {[ "unit_id" := unit_id ]}
    /\ (forall other l, get_unit_actions other = inr l ->
          tools l = tools [a1; a2; a3; a4] /\ descriptions l = descriptions [a1; a2; a3; a4]).
Proof.
  do 4 eexists. split; [reflexivity |].
  repeat (split; [reflexivity |]).
  intros other l Hl. injection Hl as <-. split; reflexivity.
Qed.

(** The suggested arguments have the given id under one key and nothing
    else. *)
Lemma suggested_args_lookup (unit_id : string) (l : list AvailableAction.t) :
  get_unit_actions unit_id = inr l ->
  (l !! 0 ≫= AvailableAction.suggested_args) ≫= (.!! "id_a") = Some unit_id
  /\ (l !! 3 ≫= AvailableAction.suggested_args) ≫= (.!! "unit_id") = Some unit_id
  /\ (l !! 0 ≫= AvailableAction.suggested_args) ≫= (.!! "unit_id") = None.
Proof.
  intros Hl. injection Hl as <-. simpl.
  rewrite !lookup_singleton_eq. split; [reflexivity |]. split; [reflexivity |].
  apply lookup_singleton_ne. discriminate.
Qed.

(** C4, counterexample: the constructor accepts empty content. *)
Lemma empty_content_accepted :
  AtomicUnit.new "u" 0%Z (unit_args "" None) = inr (AtomicUnit.mk "u" "" None 1%float 0%Z []).
Proof. reflexivity. Qed.

(** C5, counterexample: the constructor accepts empty reasoning. *)
Lemma empty_reasoning_accepted :
  Relation.new 0%Z (relation_args "a" "b" "supports" "")
  = inr (Relation.mk "a" "b" "supports" "" 0%Z).
Proof. reflexivity. Qed.

(** C5, as the code has it: the reasoning of a Relation is required, and a
    construction without it fails with a validation error on [reasoning]; any
    text, the empty one included, is accepted when the other arguments are
    valid, and the relation carries exactly the text it was given. *)
Theorem reasoning_required (now : datetime) (a : Relation.args) :
  (Relation.arg_reasoning a = None ->
     exists errs, Relation.new now a = inl errs /\ mkError "reasoning" missing ∈ errs)
  /\ (forall s d ty why,
        Relation.arg_source_id a = Some s -> Relation.arg_target_id a = Some d ->
        Relation.arg_type a = Some ty -> ty ∈ RelationType ->
        Relation.arg_reasoning a = Some why ->
        exists rel, Relation.new now a = inr rel /\ Relation.reasoning rel = why).
Proof.
  split.
  - intros Hnone.
    assert (Hin : mkError "reasoning" missing ∈ Relation.errors a).
    { unfold Relation.errors. rewrite Hnone, !elem_of_app. do 3 right.
      apply list_elem_of_here. }
    exists (Relation.errors a). split; [| exact Hin].
    apply relation_new_rejects. intros Hnil. rewrite Hnil in Hin. inversion Hin.
  - intros s d ty why Hs Hd Hty Hin Hwhy. eexists. split;
      [apply (relation_new_accepts now a s d ty why Hs Hd Hty Hwhy Hin) | reflexivity].
Qed.

Lemma reasoning_required_witness :
  (exists errs, Relation.new 0%Z (Relation.Args (Some "a") (Some "b") (Some "implies") None None)
                = inl errs /\ mkError "reasoning" missing ∈ errs)
  /\ (exists rel, Relation.new 0%Z (relation_args "a" "b" "implies" "") = inr rel
                  /\ Relation.reasoning rel = "").
Proof.
  split.
  - apply (proj1 (reasoning_required 0%Z
                    (Relation.Args (Some "a") (Some "b") (Some "implies") None None)) eq_refl).
  - apply (proj2 (reasoning_required 0%Z (relation_args "a" "b" "implies" ""))
             "a" "b" "implies" "" eq_refl eq_refl eq_refl); [| reflexivity].
    apply relation_type_cases. do 3 right. left. reflexivity.
Defined.

(** C6, counterexample: the constructor accepts a relation from a unit to
    itself. *)
Lemma self_loop_constructed :
  Relation.new 0%Z (relation_args "a" "a" "supports" "why")
  = inr (Relation.mk "a" "a" "supports" "why" 0%Z).
Proof. reflexivity. Qed.

(** C7, counterexample: a unit the constructor has returned is edited by
    assignment; its confidence leaves [0,1] and its content becomes empty. *)
Lemma created_record_edited :
  AtomicUnit.new "u" 0%Z (unit_args "water boils" None)
  = inr (AtomicUnit.mk "u" "water boils" None 1%float 0%Z [])
  /\ AtomicUnit.setattr (AtomicUnit.mk "u" "water boils" None 1%float 0%Z [])
       (AtomicUnit.set_confidence 5%float)
     = AtomicUnit.mk "u" "water boils" None 5%float 0%Z []
  /\ in_unit_interval 5%float = false
  /\ AtomicUnit.setattr (AtomicUnit.mk "u" "water boils" None 1%float 0%Z [])
       (AtomicUnit.set_content "")
     = AtomicUnit.mk "u" "" None 1%float 0%Z [].
Proof. repeat split. Qed.

(** ** Further properties of the constructors *)

Lemma check_confidence_shape (c : float) :
  (in_unit_interval c = true /\ AtomicUnit.check_confidence c = [])
  \/ (in_unit_interval c = false
      /\ exists k, AtomicUnit.check_confidence c = [mkError "confidence" k]).
Proof.
  destruct (in_unit_interval c) eqn:Hin.
  - left. split; [reflexivity | now apply check_confidence_inside].
  - right. split; [reflexivity |].
    destruct (check_confidence_outside c Hin) as [-> | ->]; eexists; reflexivity.
Qed.

Lemma confidence_errors_nil (a : AtomicUnit.args) :
  AtomicUnit.confidence_errors (AtomicUnit.arg_confidence a) = [] <-> confidence_ok a.
Proof.
  unfold confidence_ok. destruct (AtomicUnit.arg_confidence a) as [c |]; simpl.
  - destruct (check_confidence_shape c) as [[Hin ->] | (Hout & k & ->)]; split.
    + intros _ c' [= <-]. exact Hin.
    + reflexivity.
    + discriminate.
    + intros H. specialize (H c eq_refl). congruence.
  - split; [intros _ c' H; discriminate H | reflexivity].
Qed.

Lemma unit_new_inl (uuid : string) (now : datetime) (a : AtomicUnit.args)
    (errs : ValidationError) :
  AtomicUnit.new uuid now a = inl errs -> errs = AtomicUnit.errors a /\ errs <> [].
Proof.
  unfold AtomicUnit.new.
  destruct (AtomicUnit.arg_content a) as [text |] eqn:Htext.
  - destruct (AtomicUnit.errors a) as [| e es]; [discriminate |].
    intros [= <-]. split; [reflexivity | discriminate].
  - intros [= <-]. split; [reflexivity |].
    unfold AtomicUnit.errors. rewrite Htext. discriminate.
Qed.

Lemma unit_new_inr (uuid : string) (now : datetime) (a : AtomicUnit.args) (u : AtomicUnit.t) :
  AtomicUnit.new uuid now a = inr u ->
  AtomicUnit.arg_content a = Some (AtomicUnit.content u)
  /\ AtomicUnit.confidence_errors (AtomicUnit.arg_confidence a) = []
  /\ AtomicUnit.confidence u = default 1%float (AtomicUnit.arg_confidence a).
Proof.
  unfold AtomicUnit.new, AtomicUnit.errors.
  destruct (AtomicUnit.arg_content a) as [text |]; [| discriminate]. simpl.
  destruct (AtomicUnit.confidence_errors (AtomicUnit.arg_confidence a)); [| discriminate].
  intros [= <-]. repeat split; reflexivity.
Qed.

Lemma unit_new_confidence (uuid : string) (now : datetime) (a : AtomicUnit.args)
    (u : AtomicUnit.t) :
  AtomicUnit.new uuid now a = inr u -> in_unit_interval (AtomicUnit.confidence u) = true.
Proof.
  intros (_ & Herr & ->)%unit_new_inr. apply confidence_errors_nil in Herr.
  destruct (AtomicUnit.arg_confidence a) as [c |] eqn:Hc;
    [exact (Herr c Hc) | reflexivity].
Qed.

(** X1: on arguments of their fields' types, an AtomicUnit is constructed
    exactly when the content is supplied and the confidence, if supplied,
    lies in [0,1]. *)
Theorem unit_accepted_iff (uuid : string) (now : datetime) (a : AtomicUnit.args) :
  accepted (AtomicUnit.new uuid now a)
  <-> is_Some (AtomicUnit.arg_content a) /\ confidence_ok a.
Proof.
  split.
  - intros [u (Htext & Herr & _)%unit_new_inr]. split; [eauto |].
    now apply confidence_errors_nil.
  - intros [[text Htext] Hok]. eexists.
    apply (unit_new_accepts uuid now a text Htext). now apply confidence_errors_nil.
Qed.

(** X2: every unit the constructor returns has its confidence in [0,1],
    whether it was passed or defaulted. *)
Theorem unit_confidence_invariant (uuid : string) (now : datetime) (a : AtomicUnit.args)
    (u : AtomicUnit.t) :
  AtomicUnit.new uuid now a = inr u ->
  PrimFloat.leb 0%float (AtomicUnit.confidence u) = true
  /\ PrimFloat.leb (AtomicUnit.confidence u) 1%float = true.
Proof.
  intros H%unit_new_confidence. now apply andb_true_iff in H.
Qed.

Lemma unit_confidence_invariant_witness :
  PrimFloat.leb 0%float
    (AtomicUnit.confidence (AtomicUnit.mk "u" "water boils" None 1%float 7%Z [])) = true
  /\ PrimFloat.leb
       (AtomicUnit.confidence (AtomicUnit.mk "u" "water boils" None 1%float 7%Z [])) 1%float
     = true.
Proof.
  apply (unit_confidence_invariant "u" 7%Z (unit_args "water boils" None)). reflexivity.
Defined.

(** X3: rebuilding a unit from its own field values gives the same unit
    back: the constructor accepts them again, and with an id and a timestamp
    passed explicitly the default factories have no say. *)
Theorem unit_round_trip (uuid : string) (now : datetime) (a : AtomicUnit.args)
    (u : AtomicUnit.t) :
  AtomicUnit.new uuid now a = inr u ->
  forall uuid' now', AtomicUnit.new uuid' now' (unit_fields u) = inr u.
Proof.
  intros Hin%unit_new_confidence uuid' now'.
  rewrite (unit_new_accepts uuid' now' (unit_fields u) (AtomicUnit.content u) eq_refl).
  - destruct u; reflexivity.
  - simpl. now apply check_confidence_inside.
Qed.

Lemma unit_round_trip_witness :
  AtomicUnit.new "other" 99%Z
    (unit_fields (AtomicUnit.mk "u" "water boils" (Some "doi:1") 0.5%float 7%Z []))
  = inr (AtomicUnit.mk "u" "water boils" (Some "doi:1") 0.5%float 7%Z []).
Proof.
  apply (unit_round_trip "u" 7%Z
           (AtomicUnit.Args None (Some "water boils") (Some "doi:1") (Some 0.5%float) None None)).
  reflexivity.
Defined.

(** X4: on arguments of their fields' types, a rejected AtomicUnit
    construction reports an entry for [content] exactly when the content is
    omitted and an entry for [confidence] exactly when a confidence outside
    [0,1] is passed, both when both fail, in the order of the fields. *)
Theorem unit_errors_report (uuid : string) (now : datetime) (a : AtomicUnit.args)
    (errs : ValidationError) :
  AtomicUnit.new uuid now a = inl errs ->
  errs <> []
  /\ (mkError "content" missing ∈ errs <-> AtomicUnit.arg_content a = None)
  /\ ((exists k, mkError "confidence" k ∈ errs)
      <-> exists c, AtomicUnit.arg_confidence a = Some c /\ in_unit_interval c = false)
  /\ map loc errs `sublist_of` unit_checked_fields.
Proof.
  intros [-> Hne]%unit_new_inl.
  assert (Hparts : (AtomicUnit.arg_content a = None
                    /\ required "content" (AtomicUnit.arg_content a) = [mkError "content" missing]
                    \/ AtomicUnit.arg_content a <> None
                       /\ required "content" (AtomicUnit.arg_content a) = [])
                   /\ ((exists c k, AtomicUnit.arg_confidence a = Some c
                          /\ in_unit_interval c = false
                          /\ AtomicUnit.confidence_errors (AtomicUnit.arg_confidence a)
                             = [mkError "confidence" k])
                       \/ confidence_ok a
                          /\ AtomicUnit.confidence_errors (AtomicUnit.arg_confidence a) = [])).
  { split.
    - destruct (AtomicUnit.arg_content a); [right | left]; split; (reflexivity || discriminate).
    - destruct (AtomicUnit.arg_confidence a) as [c |] eqn:Hc; simpl.
      + destruct (check_confidence_shape c) as [[Hin ->] | (Hout & k & ->)].
        * right. split; [| reflexivity]. unfold confidence_ok. intros c' Hc'. congruence.
        * left. exists c, k. auto.
      + right. split; [| reflexivity]. unfold confidence_ok. intros c' Hc'. congruence. }
  unfold AtomicUnit.errors, unit_checked_fields in *.
  destruct Hparts as [[[Htext Hreq] | [Htext Hreq]] [(c & k & Hc & Hout & Hconf) | [Hok Hconf]]];
    rewrite Hreq, Hconf in *; simpl.
  - split; [discriminate |]. split; [| split].
    + split; [intros _; exact Htext | intros _; apply list_elem_of_here].
    + split; [intros _; eauto | intros _; exists k; apply list_elem_of_further, list_elem_of_here].
    + apply sublist_skip, sublist_skip, sublist_nil.
  - split; [discriminate |]. split; [| split].
    + split; [intros _; exact Htext | intros _; apply list_elem_of_here].
    + split.
      * intros [k' Hk']. apply list_elem_of_singleton in Hk'. discriminate Hk'.
      * intros (c & Hc & Hout). rewrite (Hok c Hc) in Hout. discriminate.
    + apply sublist_skip, sublist_cons, sublist_nil.
  - split; [discriminate |]. split; [| split].
    + split; [intros H%list_elem_of_singleton; discriminate H | intros H; contradiction].
    + split; [intros _; eauto | intros _; exists k; apply list_elem_of_here].
    + apply sublist_cons, sublist_skip, sublist_nil.
  - now destruct Hne.
Qed.

Lemma unit_errors_report_witness :
  [mkError "content" missing; mkError "confidence" less_than_equal] <> []
  /\ (mkError "content" missing ∈ [mkError "content" missing; mkError "confidence" less_than_equal]
      <-> AtomicUnit.arg_content
            (AtomicUnit.Args None None None (Some 1.5%float) None None) = None)
  /\ ((exists k, mkError "confidence" k
                 ∈ [mkError "content" missing; mkError "confidence" less_than_equal])
      <-> exists c, AtomicUnit.arg_confidence
                      (AtomicUnit.Args None None None (Some 1.5%float) None None) = Some c
                    /\ in_unit_interval c = false)
  /\ map loc [mkError "content" missing; mkError "confidence" less_than_equal]
     `sublist_of` unit_checked_fields.
Proof.
  apply (unit_errors_report "u" 0%Z (AtomicUnit.Args None None None (Some 1.5%float) None None)).
  reflexivity.
Defined.

Lemma relation_new_inl (now : datetime) (a : Relation.args) (errs : ValidationError) :
  Relation.new now a = inl errs -> errs = Relation.errors a /\ errs <> [].
Proof.
  unfold Relation.new, Relation.errors.
  destruct (Relation.arg_source_id a), (Relation.arg_target_id a),
    (Relation.arg_type a) as [ty |], (Relation.arg_reasoning a); simpl;
    try (intros [= <-]; split; [reflexivity | discriminate]).
  all: destruct (bool_decide (ty ∈ RelationType)); simpl; try discriminate.
  all: intros [= <-]; split; try reflexivity; discriminate.
Qed.

Lemma relation_new_inr (now : datetime) (a : Relation.args) (r : Relation.t) :
  Relation.new now a = inr r ->
  Relation.arg_source_id a = Some (Relation.source_id r)
  /\ Relation.arg_target_id a = Some (Relation.target_id r)
  /\ Relation.arg_type a = Some (Relation.type r)
  /\ Relation.arg_reasoning a = Some (Relation.reasoning r)
  /\ Relation.type r ∈ RelationType.
Proof.
  unfold Relation.new, Relation.errors.
  destruct (Relation.arg_source_id a), (Relation.arg_target_id a),
    (Relation.arg_type a) as [ty |], (Relation.arg_reasoning a); simpl; try discriminate.
  destruct (decide (ty ∈ RelationType)) as [Hin | Hout].
  - rewrite bool_decide_eq_true_2 by exact Hin. simpl. intros [= <-]. simpl. auto.
  - rewrite bool_decide_eq_false_2 by exact Hout. simpl. discriminate.
Qed.

(** X5: on arguments of their fields' types, a Relation is constructed
    exactly when the source id, the target id and the reasoning are supplied
    and the type is supplied and is one of the five kinds. *)
Theorem relation_accepted_iff (now : datetime) (a : Relation.args) :
  accepted (Relation.new now a)
  <-> is_Some (Relation.arg_source_id a) /\ is_Some (Relation.arg_target_id a)
      /\ is_Some (Relation.arg_reasoning a)
      /\ exists ty, Relation.arg_type a = Some ty /\ ty ∈ RelationType.
Proof.
  split.
  - intros [r (Hs & Hd & Hty & Hwhy & Hin)%relation_new_inr]. eauto 10.
  - intros ([s Hs] & [d Hd] & [why Hwhy] & ty & Hty & Hin). eexists.
    apply (relation_new_accepts now a s d ty why); assumption.
Qed.

(** X6: every relation the constructor returns has one of the five kinds
    as its type, and rebuilding a relation from its own field values gives
    the same relation back, whatever the clock says. *)
Theorem relation_round_trip (now : datetime) (a : Relation.args) (r : Relation.t) :
  Relation.new now a = inr r ->
  Relation.type r ∈ RelationType
  /\ forall now', Relation.new now' (relation_fields r) = inr r.
Proof.
  intros (_ & _ & _ & _ & Hin)%relation_new_inr. split; [exact Hin |].
  intros now'.
  rewrite (relation_new_accepts now' (relation_fields r) (Relation.source_id r)
             (Relation.target_id r) (Relation.type r) (Relation.reasoning r)
             eq_refl eq_refl eq_refl eq_refl Hin).
  destruct r; reflexivity.
Qed.

Lemma relation_round_trip_witness :
  Relation.type (Relation.mk "a" "b" "extends" "builds on it" 3%Z) ∈ RelationType
  /\ forall now', Relation.new now' (relation_fields (Relation.mk "a" "b" "extends" "builds on it" 3%Z))
                  = inr (Relation.mk "a" "b" "extends" "builds on it" 3%Z).
Proof.
  apply (relation_round_trip 3%Z (relation_args "a" "b" "extends" "builds on it")).
  reflexivity.
Defined.

Lemma elem_of_required {A : Type} (name : string) (x : option A) (e : ErrorDetail) :
  e ∈ required name x <-> x = None /\ e = mkError name missing.
Proof.
  destruct x; simpl.
  - rewrite elem_of_nil. split; [contradiction | intros [H _]; discriminate H].
  - rewrite list_elem_of_singleton. tauto.
Qed.

Lemma elem_of_type_errors (ty : option string) (e : ErrorDetail) :
  e ∈ Relation.type_errors ty
  <-> (ty = None /\ e = mkError "type" missing)
      \/ (exists s, ty = Some s /\ (s ∉ RelationType) /\ e = mkError "type" literal_error).
Proof.
  destruct ty as [s |]; simpl.
  - destruct (decide (s ∈ RelationType)) as [Hin | Hout].
    + rewrite bool_decide_eq_true_2 by exact Hin. rewrite elem_of_nil. split; [contradiction |].
      intros [[H _] | (s' & [= <-] & Hs' & _)]; [discriminate H | contradiction].
    + rewrite bool_decide_eq_false_2 by exact Hout. rewrite list_elem_of_singleton. split.
      * intros ->. right. eauto.
      * intros [[H _] | (s' & _ & _ & ->)]; [discriminate H | reflexivity].
  - rewrite list_elem_of_singleton. split.
    + intros ->. left. auto.
    + intros [[_ ->] | (s' & H & _)]; [reflexivity | discriminate H].
Qed.

Lemma required_locs {A : Type} (name : string) (x : option A) :
  map loc (required name x) `sublist_of` [name].
Proof. destruct x; simpl; [apply sublist_cons, sublist_nil | reflexivity]. Qed.

Lemma type_errors_locs (ty : option string) :
  map loc (Relation.type_errors ty) `sublist_of` ["type"].
Proof.
  destruct ty as [s |]; simpl; [| reflexivity].
  destruct (bool_decide (s ∈ RelationType)); simpl;
    [apply sublist_cons, sublist_nil | reflexivity].
Qed.

Ltac break_cases :=
  repeat match goal with
    | H : _ \/ _ |- _ => destruct H as [H | H]
    | H : _ /\ _ |- _ => destruct H
    | H : exists _, _ |- _ => destruct H as [? H]
    end.

(** X7: a rejected Relation construction reports every failing field and
    nothing else: a missing entry for each required field that is omitted, a
    literal entry for a type that is passed but is not one of the five kinds,
    one entry per field at most, in the order of the fields. *)
Theorem relation_errors_report (now : datetime) (a : Relation.args) (errs : ValidationError) :
  Relation.new now a = inl errs ->
  errs <> []
  /\ (mkError "source_id" missing ∈ errs <-> Relation.arg_source_id a = None)
  /\ (mkError "target_id" missing ∈ errs <-> Relation.arg_target_id a = None)
  /\ (mkError "type" missing ∈ errs <-> Relation.arg_type a = None)
  /\ (mkError "type" literal_error ∈ errs
      <-> exists ty, Relation.arg_type a = Some ty /\ ty ∉ RelationType)
  /\ (mkError "reasoning" missing ∈ errs <-> Relation.arg_reasoning a = None)
  /\ map loc errs `sublist_of` relation_checked_fields.
Proof.
  intros [-> Hne]%relation_new_inl. split; [exact Hne |]. clear Hne.
  unfold Relation.errors.
  split; [| split; [| split; [| split; [| split]]]].
  1-5: rewrite !elem_of_app, !elem_of_required, elem_of_type_errors; split;
    [ intros Herr; break_cases; subst; first [assumption | discriminate | eauto]
    | intros Hfield; break_cases; eauto 12 ].
  rewrite !map_app.
  change relation_checked_fields
    with (["source_id"] ++ ["target_id"] ++ ["type"] ++ ["reasoning"]).
  repeat apply sublist_app; auto using required_locs, type_errors_locs.
Qed.

Lemma relation_errors_report_witness :
  [mkError "target_id" missing; mkError "type" literal_error] <> []
  /\ (mkError "source_id" missing ∈ [mkError "target_id" missing; mkError "type" literal_error]
      <-> Relation.arg_source_id
            (Relation.Args (Some "a") None (Some "cites") (Some "why") None) = None)
  /\ (mkError "target_id" missing ∈ [mkError "target_id" missing; mkError "type" literal_error]
      <-> Relation.arg_target_id
            (Relation.Args (Some "a") None (Some "cites") (Some "why") None) = None)
  /\ (mkError "type" missing ∈ [mkError "target_id" missing; mkError "type" literal_error]
      <-> Relation.arg_type
            (Relation.Args (Some "a") None (Some "cites") (Some "why") None) = None)
  /\ (mkError "type" literal_error ∈ [mkError "target_id" missing; mkError "type" literal_error]
      <-> exists ty, Relation.arg_type
                       (Relation.Args (Some "a") None (Some "cites") (Some "why") None) = Some ty
                     /\ ty ∉ RelationType)
  /\ (mkError "reasoning" missing ∈ [mkError "target_id" missing; mkError "type" literal_error]
      <-> Relation.arg_reasoning
            (Relation.Args (Some "a") None (Some "cites") (Some "why") None) = None)
  /\ map loc [mkError "target_id" missing; mkError "type" literal_error]
     `sublist_of` relation_checked_fields.
Proof.
  apply (relation_errors_report 0%Z
           (Relation.Args (Some "a") None (Some "cites") (Some "why") None)).
  reflexivity.
Defined.

(** X8: the unit id can be read back from the actions suggested for it, and
    the actions of two unit ids are the same only when the ids are. *)
Theorem unit_actions_identify_unit (unit_id : string) :
  (exists l, get_unit_actions unit_id = inr l /\ suggested_unit_id l = Some unit_id)
  /\ forall other, get_unit_actions unit_id = get_unit_actions other <-> unit_id = other.
Proof.
  assert (Hread : forall i, exists l, get_unit_actions i = inr l /\ suggested_unit_id l = Some i).
  { intros i. eexists. split; [reflexivity |].
    unfold suggested_unit_id. simpl. apply lookup_singleton_eq. }
  split; [apply Hread |].
  intros other. split; [| intros ->; reflexivity].
  intros Heq.
  destruct (Hread unit_id) as (l & Hl & Hid), (Hread other) as (l' & Hl' & Hid').
  rewrite Heq, Hl' in Hl. injection Hl as <-. congruence.
Qed.

(** X9: [get_action_tool] reads the tool name off an action given as an
    object and off the same action given as a dict alike; on a dict it
    answers "unknown" exactly when the dict has no [tool] entry or has that
    very text under it. *)
Theorem get_action_tool_reads_tool (a : AvailableAction.t) (d : gmap string pyvalue) :
  get_action_tool (ActionModel a) = PyStr (AvailableAction.tool a)
  /\ get_action_tool (ActionDict (model_dump a)) = get_action_tool (ActionModel a)
  /\ (get_action_tool (ActionDict d) = PyStr "unknown"
      <-> d !! "tool" = None \/ d !! "tool" = Some (PyStr "unknown")).
Proof.
  split; [reflexivity |]. split.
  - unfold get_action_tool, model_dump. rewrite lookup_insert_eq. reflexivity.
  - unfold get_action_tool. destruct (d !! "tool") as [v |]; simpl.
    + split; [intros ->; now right | intros [H | [= ->]]; [discriminate H | reflexivity]].
    + split; [now left | reflexivity].
Qed.

(** X10: the tool names [get_action_tool] extracts from the actions that
    [get_unit_actions] suggests are the four operation names in order, from
    the objects and from their dict forms alike, and none of them is
    "unknown". *)
Theorem unit_action_tools (unit_id : string) :
  exists l,
    get_unit_actions unit_id = inr l
    /\ map (fun a => get_action_tool (ActionModel a)) l = map PyStr action_names
    /\ map (fun a => get_action_tool (ActionDict (model_dump a))) l = map PyStr action_names
    /\ forall a, a ∈ l -> get_action_tool (ActionModel a) <> PyStr "unknown".
Proof.
  eexists. split; [reflexivity |]. split; [reflexivity |]. split.
  - simpl. unfold model_dump. rewrite !lookup_insert_eq. reflexivity.
  - intros a Ha. rewrite !elem_of_cons, elem_of_nil in Ha.
    destruct Ha as [-> | [-> | [-> | [-> | []]]]]; discriminate.
Qed.

(** X11: a ConflictResult is constructed exactly when the conflicting unit
    and the explanation are supplied. The relation is optional: left out, the
    conflict carries none, and the explanation is kept as given without being
    compared with any relation. *)
Theorem conflict_result_relation_optional (u : option AtomicUnit.t) (r : option Relation.t)
    (why : option string) :
  (accepted (ConflictResult_new u r why) <-> is_Some u /\ is_Some why)
  /\ (forall c, ConflictResult_new u r why = inr c ->
        relation c = r /\ u = Some (conflicting_unit c) /\ why = Some (explanation c))
  /\ (forall errs, ConflictResult_new u r why = inl errs ->
        (mkError "conflicting_unit" missing ∈ errs <-> u = None)
        /\ (mkError "explanation" missing ∈ errs <-> why = None)).
Proof.
  unfold accepted, ConflictResult_new. split; [| split].
  - destruct u as [unit |], why as [text |]; split;
      try (intros [c Hc]; discriminate Hc);
      try (intros [[x Hx] [y Hy]]; discriminate);
      intros _; eauto.
  - intros c. destruct u as [unit |], why as [text |]; try discriminate.
    intros [= <-]. auto.
  - intros errs. destruct u as [unit |], why as [text |]; try discriminate;
      intros [= <-]; rewrite ?elem_of_cons, ?elem_of_nil;
      split; (split;
        [ intros Herr; break_cases; first [reflexivity | discriminate | contradiction]
        | intros Hfield; first [discriminate Hfield | eauto 6] ]).
Qed.

(** * The engine operations *)

Section EngineProperties.

Variable uuid4 : nat -> string.
Variable clock : nat -> datetime.
Variable embed : nat -> string -> option (list float).

#[local] Abbreviation ingest := (Engine.ingest_hypothesis uuid4 clock embed).
#[local] Abbreviation connect := (Engine.connect_propositions clock).
#[local] Abbreviation step := (Engine.step uuid4 clock embed).
#[local] Abbreviation run := (Engine.run uuid4 clock embed).

Lemma find_app_found {A : Type} (f : A -> bool) (l k : list A) (x : A) :
  List.find f l = Some x -> List.find f (l ++ k) = Some x.
Proof.
  induction l as [| y l IH]; simpl; [discriminate |].
  destruct (f y); [trivial | exact IH].
Qed.

Lemma get_id (e : Engine.t) (uid : string) (u : AtomicUnit.t) :
  Engine.get e uid = inr u -> AtomicUnit.id u = uid /\ u ∈ Engine.units e.
Proof.
  unfold Engine.get. destruct (List.find _ _) as [x |] eqn:Hfind; [| discriminate].
  intros [= <-]. apply find_some in Hfind as [Hin Hid].
  split; [| now apply list_elem_of_In].
  unfold Engine.same_id in Hid. now apply bool_decide_eq_true_1 in Hid.
Qed.

Lemma get_stored (e : Engine.t) (u : AtomicUnit.t) :
  u ∈ Engine.units e ->
  exists u', Engine.get e (AtomicUnit.id u) = inr u' /\ AtomicUnit.id u' = AtomicUnit.id u.
Proof.
  intros Hin. unfold Engine.get.
  destruct (List.find _ _) as [x |] eqn:Hfind.
  - exists x. split; [reflexivity |]. apply find_some in Hfind as [_ Hid].
    unfold Engine.same_id in Hid. now apply bool_decide_eq_true_1 in Hid.
  - apply list_elem_of_In in Hin. apply (find_none _ _ Hfind) in Hin.
    unfold Engine.same_id in Hin. now apply bool_decide_eq_false_1 in Hin.
Qed.

Lemma get_kept (e e' : Engine.t) (uid : string) (u : AtomicUnit.t) :
  keeps e e' -> Engine.get e uid = inr u -> Engine.get e' uid = inr u.
Proof.
  intros [[k Hk] _]. unfold Engine.get. rewrite Hk.
  destruct (List.find _ (Engine.units e)) as [x |] eqn:Hfind; [| discriminate].
  intros [= <-]. now rewrite (find_app_found _ _ k x Hfind).
Qed.

#[local] Instance keeps_refl : Reflexive keeps.
Proof. intros e. split; reflexivity. Qed.

#[local] Instance keeps_trans : Transitive keeps.
Proof. intros a b c [H1 H2] [H3 H4]. split; etrans; eassumption. Qed.

(** ** Ingestion *)

(** The four ways a call of [ingest_hypothesis] ends. *)
Lemma ingest_cases (e : Engine.t) (text : string) (source : option string) (key : string) :
  (text = "" /\ ingest e text source key = (inl (Engine.invalid "hypothesis"), e))
  \/ (text <> "" /\ exists uid, Engine.ingest_keys e !! key = Some uid
        /\ ingest e text source key
           = (match Engine.get e uid with
              | inr u => inr (Engine.unit_response u)
              | inl err => inl err
              end, e))
  \/ (text <> "" /\ Engine.ingest_keys e !! key = None
        /\ embed (Engine.embed_calls e) text = None
        /\ ingest e text source key = (inl Engine.EmbeddingProviderError, Engine.count_embed_call e))
  \/ (text <> "" /\ Engine.ingest_keys e !! key = None
        /\ exists v, embed (Engine.embed_calls e) text = Some v
        /\ ingest e text source key
           = (inr (Engine.unit_response
                     (ingested_unit (uuid4 (Engine.draws e)) (clock (Engine.draws e)) text source v)),
              after_ingest e key
                (ingested_unit (uuid4 (Engine.draws e)) (clock (Engine.draws e)) text source v))).
Proof.
  unfold Engine.ingest_hypothesis.
  destruct (decide (text = "")) as [-> | Hne]; [left; split; reflexivity |].
  right. rewrite bool_decide_eq_false_2 by exact Hne.
  destruct (Engine.ingest_keys e !! key) as [uid |] eqn:Hkey.
  - left. split; [exact Hne |]. exists uid. split; [reflexivity |].
    destruct (Engine.get e uid); reflexivity.
  - right. destruct (embed (Engine.embed_calls e) text) as [v |] eqn:Hv.
    + right. split; [exact Hne |]. split; [reflexivity |]. exists v. split; reflexivity.
    + left. repeat split; trivial.
Qed.

Lemma ingest_state (e : Engine.t) (text : string) (source : option string) (key : string) :
  let e' := snd (ingest e text source key) in
  (Engine.units e' = Engine.units e
   \/ exists u, Engine.units e' = Engine.units e ++ [u] /\ AtomicUnit.content u = text
                /\ text <> "")
  /\ Engine.edges e' = Engine.edges e.
Proof.
  destruct (ingest_cases e text source key)
    as [[_ ->] | [(_ & uid & _ & ->) | [(_ & _ & _ & ->) | (Hne & _ & v & _ & ->)]]];
    simpl; split; try reflexivity; try (left; reflexivity).
  right. eexists. split; [reflexivity |]. split; [reflexivity | exact Hne].
Qed.

(** ** Connection *)

Lemma connect_cases (e : Engine.t) (a b rel why key : string) :
  snd (connect e a b rel why key) = e
  \/ (Engine.connect_keys e !! key = None /\ a <> b /\ rel ∈ RelationType
      /\ accepted (Engine.get e a) /\ accepted (Engine.get e b)
      /\ snd (connect e a b rel why key)
         = after_connect e key (Relation.mk a b rel why (clock (Engine.draws e)))).
Proof.
  unfold Engine.connect_propositions.
  destruct (Engine.connect_keys e !! key) as [rid |] eqn:Hkey.
  { left. destruct (Engine.edges e !! rid); reflexivity. }
  destruct (Engine.get e a) as [err | ua] eqn:Ha; [now left |].
  destruct (Engine.get e b) as [err | ub] eqn:Hb; [now left |].
  destruct (decide (rel ∈ RelationType)) as [Hin | Hout].
  2: { left. rewrite bool_decide_eq_false_2 by exact Hout. reflexivity. }
  rewrite bool_decide_eq_true_2 by exact Hin. cbn [negb].
  destruct (decide (a = b)) as [-> | Hab].
  { left. rewrite bool_decide_eq_true_2 by reflexivity. reflexivity. }
  rewrite bool_decide_eq_false_2 by exact Hab.
  right. unfold Engine.add_edge. rewrite Ha, Hb.
  rewrite (relation_new_accepts (clock (Engine.draws e))
             (Relation.Args (Some a) (Some b) (Some rel) (Some why) None)
             a b rel why eq_refl eq_refl eq_refl eq_refl Hin).
  repeat split; try assumption; try (eexists; reflexivity).
Qed.

Lemma connect_state (e : Engine.t) (a b rel why key : string) :
  let e' := snd (connect e a b rel why key) in
  Engine.units e' = Engine.units e
  /\ (Engine.edges e' = Engine.edges e
      \/ exists r, Engine.edges e' = Engine.edges e ++ [r] /\ sound_edge r
                   /\ Relation.source_id r = a /\ Relation.target_id r = b
                   /\ Relation.reasoning r = why).
Proof.
  destruct (connect_cases e a b rel why key) as [-> | (_ & Hab & Hin & _ & _ & ->)]; simpl.
  - split; [reflexivity | now left].
  - split; [reflexivity |]. right. eexists. split; [reflexivity |].
    repeat split; try reflexivity; assumption.
Qed.

(** ** The read operations leave the stores alone *)

Lemma search_state (e : Engine.t) (q : string) (limit : Z) :
  snd (Engine.semantic_search embed e q limit) = e
  \/ snd (Engine.semantic_search embed e q limit) = Engine.count_embed_call e.
Proof.
  unfold Engine.semantic_search.
  destruct (limit <=? 0)%Z; [now left |]. right.
  destruct (embed _ _); [| reflexivity].
  destruct (Engine.search_results _ _); reflexivity.
Qed.

Lemma search_stores (e : Engine.t) (q : string) (limit : Z) :
  Engine.units (snd (Engine.semantic_search embed e q limit)) = Engine.units e
  /\ Engine.edges (snd (Engine.semantic_search embed e q limit)) = Engine.edges e.
Proof. destruct (search_state e q limit) as [-> | ->]; split; reflexivity. Qed.

Lemma lineage_stores (e : Engine.t) (a b : string) :
  Engine.units (snd (Engine.find_scientific_lineage embed e a b)) = Engine.units e
  /\ Engine.edges (snd (Engine.find_scientific_lineage embed e a b)) = Engine.edges e.
Proof.
  unfold Engine.find_scientific_lineage.
  pose proof (search_stores e a 1) as [Hu1 He1].
  destruct (Engine.semantic_search embed e a 1) as [r1 e1]. simpl in Hu1, He1.
  destruct (Engine.top_unit r1); [now split |].
  pose proof (search_stores e1 b 1) as [Hu2 He2].
  destruct (Engine.semantic_search embed e1 b 1) as [r2 e2]. simpl in Hu2, He2.
  assert (Engine.units e2 = Engine.units e /\ Engine.edges e2 = Engine.edges e) as Hgoal
    by (split; congruence).
  destruct (Engine.top_unit r2); [exact Hgoal |].
  destruct (Engine.bfs _ _ _ _ _); [| exact Hgoal].
  destruct (Engine.lineage_steps _ _ _); exact Hgoal.
Qed.

Lemma contradictions_state (e : Engine.t) (c : string) :
  snd (Engine.find_contradictions embed e c) = e
  \/ snd (Engine.find_contradictions embed e c) = Engine.count_embed_call e.
Proof.
  unfold Engine.find_contradictions.
  destruct (bool_decide (c = "")); [now left |]. right.
  destruct (embed _ _); reflexivity.
Qed.

(** What one operation does to the two stores: nothing, or one sound record
    appended. *)
Lemma step_stores (e : Engine.t) (op : Engine.Op) :
  exists us es,
    Engine.units (step e op) = Engine.units e ++ us
    /\ Engine.edges (step e op) = Engine.edges e ++ es
    /\ Forall sound_unit us /\ Forall sound_edge es.
Proof.
  destruct op as [h s k | a b rel why k | q l | a b | c | uid | l]; cbn [Engine.step].
  - destruct (ingest_state e h s k) as [[Hu | (u & Hu & Hc & Hne)] He].
    + exists [], []. rewrite Hu, He, !app_nil_r. auto.
    + exists [u], []. rewrite Hu, He, app_nil_r. repeat split; auto.
      constructor; [| constructor]. unfold sound_unit. congruence.
  - destruct (connect_state e a b rel why k) as [Hu [He | (r & He & Hr & _)]].
    + exists [], []. rewrite Hu, He, !app_nil_r. auto.
    + exists [], [r]. rewrite Hu, He, app_nil_r. repeat split; auto.
  - destruct (search_stores e q l) as [Hu He].
    exists [], []. rewrite Hu, He, !app_nil_r. auto.
  - destruct (lineage_stores e a b) as [Hu He].
    exists [], []. rewrite Hu, He, !app_nil_r. auto.
  - exists [], []. destruct (contradictions_state e c) as [-> | ->];
      simpl; rewrite !app_nil_r; auto.
  - exists [], []. unfold Engine.get_unit. destruct (Engine.get e uid);
      simpl; rewrite !app_nil_r; auto.
  - exists [], []. simpl. rewrite !app_nil_r. auto.
Qed.

Lemma step_keeps (e : Engine.t) (op : Engine.Op) : keeps e (step e op).
Proof.
  destruct (step_stores e op) as (us & es & Hu & He & _).
  split; [exists us | exists es]; assumption.
Qed.

Lemma run_keeps (ops : list Engine.Op) (e : Engine.t) : keeps e (run e ops).
Proof.
  revert e. induction ops as [| op ops IH]; intros e; [reflexivity |].
  cbn. etrans; [apply step_keeps | apply IH].
Qed.

Lemma step_sound (e : Engine.t) (op : Engine.Op) : sound e -> sound (step e op).
Proof.
  intros [Hu He]. destruct (step_stores e op) as (us & es & Hu' & He' & Hus & Hes).
  unfold sound. rewrite Hu', He'. split; apply Forall_app; auto.
Qed.

Lemma run_sound (ops : list Engine.Op) (e : Engine.t) : sound e -> sound (run e ops).
Proof.
  revert e. induction ops as [| op ops IH]; intros e He; [exact He |].
  cbn. apply IH, step_sound, He.
Qed.

(** A first ingestion under a fresh key succeeds as soon as the content is
    not empty and the provider answers. *)
Lemma ingest_fresh_succeeds (e : Engine.t) (text : string) (source : option string)
    (key : string) (v : list float) :
  text <> "" -> Engine.ingest_keys e !! key = None ->
  embed (Engine.embed_calls e) text = Some v ->
  exists r e1, ingest e text source key = (inr r, e1)
               /\ Engine.units e1 = Engine.units e ++ [ur_unit r]
               /\ Engine.embed_calls e1 = S (Engine.embed_calls e).
Proof.
  intros Hne Hkey Hv.
  destruct (ingest_cases e text source key)
    as [[-> _] | [(_ & uid & Hk & _) | [(_ & _ & Hnone & _) | (_ & _ & v' & Hv' & Heq)]]];
    try congruence.
  do 2 eexists. split; [exact Heq |]. split; reflexivity.
Qed.

(** C1: ingestion is idempotent. When a call of [ingest_hypothesis] with key
    [key] and content [text] has returned a unit, the same call made again
    returns a unit with the same id and leaves the engine exactly as it was:
    no unit is added and the embedding provider is not called. The key is bound
    to that id, and the two calls together have stored one unit if the key was
    new and none if it was already known. Under a new key the first call does
    return a unit, as soon as the content is not empty and the provider
    answers. *)
Theorem ingest_idempotent (e : Engine.t) (text : string) (source : option string)
    (key : string) :
  (forall r1 e1, ingest e text source key = (inr r1, e1) ->
     exists r2,
       ingest e1 text source key = (inr r2, e1)
       /\ AtomicUnit.id (ur_unit r2) = AtomicUnit.id (ur_unit r1)
       /\ Engine.ingest_keys e1 !! key = Some (AtomicUnit.id (ur_unit r1))
       /\ Engine.embed_calls (snd (ingest e1 text source key)) = Engine.embed_calls e1
       /\ length (Engine.units (snd (ingest e1 text source key)))
          = match Engine.ingest_keys e !! key with
            | Some _ => length (Engine.units e)
            | None => S (length (Engine.units e))
            end)
  /\ (forall v, text <> "" -> Engine.ingest_keys e !! key = None ->
        embed (Engine.embed_calls e) text = Some v ->
        exists r1 e1, ingest e text source key = (inr r1, e1)
                      /\ Engine.units e1 = Engine.units e ++ [ur_unit r1]
                      /\ Engine.embed_calls e1 = S (Engine.embed_calls e)).
Proof.
  split; [| intros v; apply ingest_fresh_succeeds].
  intros r1 e1 Hfirst.
  destruct (ingest_cases e text source key)
    as [[_ Heq] | [(Hne & uid & Hkey & Heq) | [(_ & _ & _ & Heq) | (Hne & Hkey & v & Hv & Heq)]]];
    rewrite Heq in Hfirst; try discriminate Hfirst.
  - (* the first call was itself a replay *)
    destruct (Engine.get e uid) as [err | u] eqn:Hget; [discriminate Hfirst |].
    injection Hfirst as <- <-. exists (Engine.unit_response u).
    rewrite Heq, Hkey. simpl. apply get_id in Hget as [Hid _].
    repeat split; try reflexivity. now rewrite Hid.
  - (* the first call created the unit *)
    injection Hfirst as <- <-.
    set (u := ingested_unit (uuid4 (Engine.draws e)) (clock (Engine.draws e)) text source v).
    assert (Hin : u ∈ Engine.units (after_ingest e key u))
      by (simpl; apply elem_of_app; right; apply list_elem_of_singleton; reflexivity).
    destruct (get_stored _ u Hin) as (u' & Hget & Hid).
    assert (Hsecond : ingest (after_ingest e key u) text source key
                      = (inr (Engine.unit_response u'), after_ingest e key u)).
    { unfold Engine.ingest_hypothesis. rewrite bool_decide_eq_false_2 by exact Hne.
      cbn [Engine.ingest_keys after_ingest]. rewrite lookup_insert_eq.
      fold (after_ingest e key u). rewrite Hget. reflexivity. }
    exists (Engine.unit_response u'). rewrite Hsecond, Hkey. simpl.
    repeat split; try reflexivity.
    + exact Hid.
    + apply lookup_insert_eq.
    + rewrite length_app. simpl. lia.
Qed.

(** The operations only append to the two stores: after any sequence of
    them every unit and every relation that was stored is still stored at the
    same position with the same fields, and a lookup by id that found a unit
    finds that very unit. *)
Lemma stored_records_immutable (e : Engine.t) (ops : list Engine.Op) :
  (forall i u, Engine.units e !! i = Some u -> Engine.units (run e ops) !! i = Some u)
  /\ (forall i r, Engine.edges e !! i = Some r -> Engine.edges (run e ops) !! i = Some r)
  /\ (forall uid u, Engine.get e uid = inr u -> Engine.get (run e ops) uid = inr u)
  /\ (forall uid, Engine.edges_from e uid `prefix_of` Engine.edges_from (run e ops) uid).
Proof.
  destruct (run_keeps ops e) as [Hu He].
  split; [| split; [| split]].
  - intros i u Hi. exact (prefix_lookup_Some _ _ _ _ Hi Hu).
  - intros i r Hi. exact (prefix_lookup_Some _ _ _ _ Hi He).
  - intros uid u. apply get_kept. split; assumption.
  - intros uid. destruct He as [k Hk]. unfold Engine.edges_from. rewrite Hk.
    rewrite List.filter_app. eexists. reflexivity.
Qed.

(** C7, as the code has it: the records are not immutable objects. An
    assignment to a field of an AtomicUnit or of a Relation is carried out
    without validation, whatever the value, and the field then holds it. What
    holds is that no engine operation edits or deletes a stored record: after
    any sequence of operations every stored unit and relation is still stored
    at its position with the fields it had, and a lookup by id returns the
    same unit. *)
Theorem records_edited_only_by_assignment (e : Engine.t) (ops : list Engine.Op) :
  (forall u x, unit_holds x (AtomicUnit.setattr u x))
  /\ (forall r x, relation_holds x (Relation.setattr r x))
  /\ (forall i u, Engine.units e !! i = Some u -> Engine.units (run e ops) !! i = Some u)
  /\ (forall i r, Engine.edges e !! i = Some r -> Engine.edges (run e ops) !! i = Some r)
  /\ (forall uid u, Engine.get e uid = inr u -> Engine.get (run e ops) uid = inr u).
Proof.
  split; [intros u x; destruct x; reflexivity |].
  split; [intros r x; destruct x; reflexivity |].
  destruct (run_keeps ops e) as [Hu He].
  split; [| split].
  - intros i u Hi. exact (prefix_lookup_Some _ _ _ _ Hi Hu).
  - intros i r Hi. exact (prefix_lookup_Some _ _ _ _ Hi He).
  - intros uid u. apply get_kept. split; assumption.
Qed.

(** Contradiction detection answers whenever the claim is not empty and the
    provider answers, conflicts or not. *)
Lemma find_contradictions_answers (e : Engine.t) (text : string) (q : list float) :
  text <> "" -> embed (Engine.embed_calls e) text = Some q ->
  exists resp, Engine.find_contradictions embed e text = (inr resp, Engine.count_embed_call e)
               /\ (conflicts_found resp = true <-> conflicts resp <> []).
Proof.
  intros Hne Hq. unfold Engine.find_contradictions.
  rewrite bool_decide_eq_false_2 by exact Hne. rewrite Hq.
  eexists. split; [reflexivity |]. simpl.
  rewrite negb_true_iff, bool_decide_eq_false. reflexivity.
Qed.

(** C9: every conflict that [find_contradictions] reports carries a relation;
    that relation is a stored edge of type refutes or contradicts with the
    reported unit at one of its ends, and the explanation quotes the
    relation's stored reasoning. *)
Theorem conflicts_annotated (e e' : Engine.t) (text : string) (resp : ConflictResponse)
    (c : ConflictResult) :
  Engine.find_contradictions embed e text = (inr resp, e') ->
  c ∈ conflicts resp ->
  exists r,
    relation c = Some r
    /\ (Relation.type r = "refutes" \/ Relation.type r = "contradicts")
    /\ r ∈ Engine.edges e
    /\ (Relation.source_id r = AtomicUnit.id (conflicting_unit c)
        \/ Relation.target_id r = AtomicUnit.id (conflicting_unit c))
    /\ conflicting_unit c ∈ Engine.units e
    /\ quotes (explanation c) (Relation.reasoning r).
Proof.
  unfold Engine.find_contradictions.
  destruct (bool_decide (text = "")); [discriminate |].
  destruct (embed (Engine.embed_calls e) text) as [q |]; [| discriminate].
  intros [= <- <-]. cbn [conflicts].
  intros (h & _ & Hc)%list_elem_of_omap. unfold Engine.conflict_of in Hc.
  destruct (Engine.opposing_edge _ _ _) as [r |] eqn:Hr; [| discriminate].
  destruct (Engine.get _ _) as [err | u] eqn:Hu; [discriminate |].
  injection Hc as <-. exists r. cbn [relation conflicting_unit explanation].
  unfold Engine.opposing_edge in Hr. apply find_some in Hr as [Hin Hr].
  apply andb_true_iff in Hr as [Hopp Hjoin].
  apply get_id in Hu as [Hid Hstored].
  split; [reflexivity |]. split; [| split; [| split; [| split]]].
  - unfold Engine.opposing in Hopp. apply orb_true_iff in Hopp as [H | H];
      apply bool_decide_eq_true_1 in H; auto.
  - now apply list_elem_of_In.
  - unfold Engine.joins in Hjoin. rewrite Hid.
    apply orb_true_iff in Hjoin as [H | H]; apply andb_true_iff in H as [H _];
      apply bool_decide_eq_true_1 in H; auto.
  - exact Hstored.
  - eexists. reflexivity.
Qed.

(** C4, as the code has it: the content of an AtomicUnit is required, and a
    construction without it fails with a validation error on [content]; any
    text, the empty one included, is accepted by the constructor and kept as
    given. Ingestion refuses empty content with a validation error and leaves
    the engine as it was, so every unit the engine has stored has content
    that is not empty. *)
Theorem content_required (uuid : string) (now : datetime) (a : AtomicUnit.args) :
  (AtomicUnit.arg_content a = None ->
     exists errs, AtomicUnit.new uuid now a = inl errs /\ mkError "content" missing ∈ errs)
  /\ (forall text, AtomicUnit.arg_content a = Some text ->
        AtomicUnit.confidence_errors (AtomicUnit.arg_confidence a) = [] ->
        exists u, AtomicUnit.new uuid now a = inr u /\ AtomicUnit.content u = text)
  /\ (forall e source key, exists errs,
        ingest e "" source key = (inl (Engine.Validation errs), e))
  /\ (forall ops u, u ∈ Engine.units (run Engine.empty ops) -> AtomicUnit.content u <> "").
Proof.
  split; [| split; [| split]].
  - intros Hnone.
    assert (Hin : mkError "content" missing ∈ AtomicUnit.errors a).
    { unfold AtomicUnit.errors. rewrite Hnone. simpl. apply list_elem_of_here. }
    exists (AtomicUnit.errors a). split; [| exact Hin].
    apply unit_new_rejects. intros Hnil. rewrite Hnil in Hin. inversion Hin.
  - intros text Htext Hconf. eexists. split;
      [apply (unit_new_accepts uuid now a text Htext Hconf) | reflexivity].
  - intros e source key. eexists. reflexivity.
  - intros ops u Hu.
    assert (Hsound : sound (run Engine.empty ops)).
    { apply run_sound. split; constructor. }
    destruct Hsound as [Hunits _]. rewrite Forall_forall in Hunits. exact (Hunits u Hu).
Qed.

(** C6, as the code has it: the Relation record accepts equal endpoints, and
    self-loops are kept out by [connect_propositions]. A call with the same
    id on both sides leaves the engine exactly as it was, so no edge is
    created; under a new key and for a stored unit it fails with a validation
    error; and no relation the engine has stored joins a unit to itself. *)
Theorem self_loop_rejected_on_connect (e : Engine.t) (a rel why key : string) :
  (forall now, rel ∈ RelationType ->
     Relation.new now (relation_args a a rel why) = inr (Relation.mk a a rel why now))
  /\ snd (connect e a a rel why key) = e
  /\ (Engine.connect_keys e !! key = None -> accepted (Engine.get e a) ->
      exists errs, fst (connect e a a rel why key) = inl (Engine.Validation errs))
  /\ (forall ops r, r ∈ Engine.edges (run Engine.empty ops) ->
        Relation.source_id r <> Relation.target_id r).
Proof.
  split; [| split; [| split]].
  - intros now Hin.
    exact (relation_new_accepts now (relation_args a a rel why) a a rel why
             eq_refl eq_refl eq_refl eq_refl Hin).
  - destruct (connect_cases e a a rel why key) as [Heq | (_ & Hne & _)];
      [exact Heq | contradiction].
  - intros Hkey [ua Hua]. unfold Engine.connect_propositions. rewrite Hkey, Hua.
    destruct (bool_decide (rel ∈ RelationType)); cbn [negb]; [| eexists; reflexivity].
    rewrite bool_decide_eq_true_2 by reflexivity. eexists. reflexivity.
  - intros ops r Hr.
    assert (Hsound : sound (run Engine.empty ops)).
    { apply run_sound. split; constructor. }
    destruct Hsound as [_ Hedges]. rewrite Forall_forall in Hedges.
    exact (proj1 (Hedges r Hr)).
Qed.

End EngineProperties.

(** * The theorems on a concrete engine *)

Lemma ingest_idempotent_witness :
  exists r2,
    Engine.ingest_hypothesis stub_uuid4 stub_clock stub_embed stub_first
      "water boils at 100 degrees" None "test-uc1" = (inr r2, stub_first)
    /\ AtomicUnit.id (ur_unit r2) = AtomicUnit.id (ur_unit (Engine.unit_response stub_unit))
    /\ Engine.ingest_keys stub_first !! "test-uc1"
       = Some (AtomicUnit.id (ur_unit (Engine.unit_response stub_unit)))
    /\ Engine.embed_calls
         (snd (Engine.ingest_hypothesis stub_uuid4 stub_clock stub_embed stub_first
                 "water boils at 100 degrees" None "test-uc1"))
       = Engine.embed_calls stub_first
    /\ length (Engine.units
                 (snd (Engine.ingest_hypothesis stub_uuid4 stub_clock stub_embed stub_first
                         "water boils at 100 degrees" None "test-uc1")))
       = match Engine.ingest_keys Engine.empty !! "test-uc1" with
         | Some _ => length (Engine.units Engine.empty)
         | None => S (length (Engine.units Engine.empty))
         end.
Proof.
  apply (proj1 (ingest_idempotent stub_uuid4 stub_clock stub_embed Engine.empty
                  "water boils at 100 degrees" None "test-uc1")
           (Engine.unit_response stub_unit) stub_first).
  vm_compute. reflexivity.
Defined.

Lemma stored_records_immutable_witness :
  Engine.units two_claims !! 0 = Some
    (ingested_unit "a" 0%Z "larger models always win" None [1%float; 0.5%float]).
Proof.
  apply (proj1 (stored_records_immutable stub_uuid4 stub_clock stub_embed
                  (stub_run [Engine.Ingest "larger models always win" None "k1"])
                  [Engine.Ingest "small models can win" None "k2";
                   Engine.Connect "b" "a" "contradicts" "benchmarks disagree" "c1"]) 0).
  reflexivity.
Defined.

Lemma records_edited_only_by_assignment_witness :
  unit_holds (AtomicUnit.set_confidence 5%float)
    (AtomicUnit.setattr stub_unit (AtomicUnit.set_confidence 5%float))
  /\ Engine.edges two_claims !! 0
     = Some (Relation.mk "b" "a" "contradicts" "benchmarks disagree" 2%Z).
Proof.
  split.
  - apply (proj1 (records_edited_only_by_assignment stub_uuid4 stub_clock stub_embed
                    two_claims [])).
  - apply (proj1 (proj2 (proj2 (proj2
             (records_edited_only_by_assignment stub_uuid4 stub_clock stub_embed
                (stub_run [Engine.Ingest "larger models always win" None "k1";
                           Engine.Ingest "small models can win" None "k2";
                           Engine.Connect "b" "a" "contradicts" "benchmarks disagree" "c1"])
                [Engine.GetUnit "a"; Engine.Contradictions "model size"])))) 0).
    reflexivity.
Defined.

Lemma conflicts_annotated_witness :
  exists r,
    relation stub_conflict = Some r
    /\ (Relation.type r = "refutes" \/ Relation.type r = "contradicts")
    /\ r ∈ Engine.edges two_claims
    /\ (Relation.source_id r = AtomicUnit.id (conflicting_unit stub_conflict)
        \/ Relation.target_id r = AtomicUnit.id (conflicting_unit stub_conflict))
    /\ conflicting_unit stub_conflict ∈ Engine.units two_claims
    /\ quotes (explanation stub_conflict) (Relation.reasoning r).
Proof.
  eapply (conflicts_annotated stub_embed two_claims _ "model size and performance" _
            stub_conflict).
  - vm_compute. reflexivity.
  - vm_compute. apply list_elem_of_here.
Defined.

Lemma content_required_witness :
  (exists errs, AtomicUnit.new "u" 0%Z (AtomicUnit.Args None None None None None None) = inl errs
                /\ mkError "content" missing ∈ errs)
  /\ (exists u, AtomicUnit.new "u" 0%Z (unit_args "" None) = inr u /\ AtomicUnit.content u = "")
  /\ AtomicUnit.content stub_unit <> "".
Proof.
  split; [| split].
  - apply (proj1 (content_required stub_uuid4 stub_clock stub_embed "u" 0%Z
                    (AtomicUnit.Args None None None None None None)) eq_refl).
  - apply (proj1 (proj2 (content_required stub_uuid4 stub_clock stub_embed "u" 0%Z
                           (unit_args "" None))) "" eq_refl eq_refl).
  - apply (proj2 (proj2 (proj2 (content_required stub_uuid4 stub_clock stub_embed "u" 0%Z
                                  (unit_args "" None))))
             [Engine.Ingest "water boils at 100 degrees" None "test-uc1"]).
    vm_compute. apply list_elem_of_here.
Defined.

Lemma self_loop_rejected_on_connect_witness :
  exists errs,
    fst (Engine.connect_propositions stub_clock two_claims "a" "a" "supports" "same unit" "c2")
    = inl (Engine.Validation errs).
Proof.
  apply (proj1 (proj2 (proj2 (self_loop_rejected_on_connect stub_uuid4 stub_clock stub_embed
                                two_claims "a" "supports" "same unit" "c2")))).
  - vm_compute. reflexivity.
  - eexists. vm_compute. reflexivity.
Defined.

(** The other ways a call with equal ids ends: a unit that is not stored is
    reported as not found, and a key that is already bound replays the
    relation it is bound to. Neither adds an edge. *)
Example self_loop_unknown_unit :
  Engine.connect_propositions stub_clock two_claims "z" "z" "supports" "same unit" "c2"
  = (inl (Engine.NotFoundError "z"), two_claims).
Proof. vm_compute. reflexivity. Qed.

Example self_loop_replayed_key :
  exists resp,
    Engine.connect_propositions stub_clock two_claims "a" "a" "supports" "same unit" "c1"
    = (inr resp, two_claims)
    /\ cr_relation resp = Relation.mk "b" "a" "contradicts" "benchmarks disagree" 2%Z.
Proof. eexists. split; vm_compute; reflexivity. Qed.

(** The engine stores a relation whose reasoning is empty. *)
Example empty_reasoning_stored :
  Engine.edges
    (Engine.step stub_uuid4 stub_clock stub_embed two_claims
       (Engine.Connect "a" "b" "supports" "" "c2")) !! 1
  = Some (Relation.mk "a" "b" "supports" "" 3%Z).
Proof. vm_compute. reflexivity. Qed.

(** A provider failure stores nothing and binds no key, so a later call with
    the same key starts afresh. *)
Example ingest_provider_failure :
  Engine.ingest_hypothesis stub_uuid4 stub_clock stub_embed Engine.empty "boom" None "k"
  = (inl Engine.EmbeddingProviderError, Engine.count_embed_call Engine.empty).
Proof. vm_compute. reflexivity. Qed.
